(** * Sueldos dashboard: the numeric pipeline of [app.py]

    A shallow embedding of the core of the dashboard: date normalisation
    ([to_month_start]), merging with the reference index ([merge_all]),
    detection of the last common month ([compute_last_common_month]),
    resolution of the base index level and the deflation arithmetic
    ([deflate] and the module-level computation of [out]).

    Numeric cells are IEEE 754 binary64 values, as in a pandas [float64]
    column: a missing value is NaN, [notna] is "is not NaN", and division by
    zero follows IEEE rules (it yields an infinity or NaN and raises no error,
    as numpy does under pandas).  Date cells are [datetime64] values, with
    [NaT] for a missing date. *)

From Stdlib Require Import ZArith List String Bool Floats Lia Permutation Sorted.
Import ListNotations.

Set Implicit Arguments.

(** ** Floating-point cells *)

Module Cell.

Definition notna (x : float) : bool := negb (is_nan x).

(** [series.notna().any()] *)
Definition any_notna (xs : list float) : bool := existsb notna xs.

End Cell.

(** ** Timestamps *)

(** A [pandas.Timestamp] through its calendar fields: year, month (1..12),
    day of the month and nanoseconds since midnight. *)
Record Timestamp : Type := mkTimestamp {
  year : Z;
  month : Z;
  day : Z;
  nanos : Z
}.

(** A [datetime64] cell; [None] is [NaT]. *)
Definition datetime : Type := option Timestamp.

Module Ts.

Definition compare (a b : Timestamp) : comparison :=
  match Z.compare (year a) (year b) with
  | Eq =>
      match Z.compare (month a) (month b) with
      | Eq =>
          match Z.compare (day a) (day b) with
          | Eq => Z.compare (nanos a) (nanos b)
          | c => c
          end
      | c => c
      end
  | c => c
  end.

Definition eqb (a b : Timestamp) : bool :=
  match compare a b with Eq => true | _ => false end.

Definition ltb (a b : Timestamp) : bool :=
  match compare a b with Lt => true | _ => false end.

Definition leb (a b : Timestamp) : bool :=
  match compare a b with Gt => false | _ => true end.

(** The lexicographic order that [compare] decides. *)
Definition le (a b : Timestamp) : Prop :=
  (year a < year b \/
   (year a = year b /\
    (month a < month b \/
     (month a = month b /\
      (day a < day b \/ (day a = day b /\ nanos a <= nanos b))))))%Z.

Definition lt (a b : Timestamp) : Prop :=
  (year a < year b \/
   (year a = year b /\
    (month a < month b \/
     (month a = month b /\
      (day a < day b \/ (day a = day b /\ nanos a < nanos b))))))%Z.

(** [Period("M").to_timestamp()]: the first instant of the month. *)
Definition month_start (t : Timestamp) : Timestamp :=
  {| year := year t; month := month t; day := 1; nanos := 0 |}.

End Ts.

(** Comparisons of [datetime64] cells: any comparison with [NaT] is false. *)
Module Dt.

Definition ltb (a b : datetime) : bool :=
  match a, b with
  | Some x, Some y => Ts.ltb x y
  | _, _ => false
  end.

Definition leb (a b : datetime) : bool :=
  match a, b with
  | Some x, Some y => Ts.leb x y
  | _, _ => false
  end.

(** [Series.max()] on a datetime column: missing cells are skipped, and
    the result is [NaT] when nothing is left. *)
Definition max2 (acc : datetime) (d : datetime) : datetime :=
  match acc, d with
  | None, _ => d
  | _, None => acc
  | Some a, Some x => if Ts.ltb a x then Some x else Some a
  end.

Definition max (ds : list datetime) : datetime := fold_left max2 ds None.

Definition min2 (acc : datetime) (d : datetime) : datetime :=
  match acc, d with
  | None, _ => d
  | _, None => acc
  | Some a, Some x => if Ts.ltb x a then Some x else Some a
  end.

Definition min (ds : list datetime) : datetime := fold_left min2 ds None.

(** Python's builtin [min] over a non-empty sequence [x :: xs]: the
    running minimum is replaced only when [y < cur] holds, so a [NaT] is
    neither skipped nor propagated: it wins exactly when it comes first. *)
Definition py_min (x : datetime) (xs : list datetime) : datetime :=
  fold_left (fun cur y => if ltb y cur then y else cur) xs x.

End Dt.

(** ** Date normalisation *)

(** A raw cell of the [fecha] column: text still to be parsed, or a value
    that already is a [datetime64] (possibly [NaT]). *)
Inductive datelike : Type :=
| Text (s : string)
| Stamp (t : Timestamp)
| NaT.

Definition as_datelike (d : datetime) : datelike :=
  match d with
  | Some t => Stamp t
  | None => NaT
  end.

Section DateNormalizer.

(** The date parser of [pd.to_datetime], elementwise; [None] on text that
    does not parse. *)
Variable parse : string -> option Timestamp.

(** [pd.to_datetime(s, errors="coerce")] on one cell. *)
Definition to_datetime (x : datelike) : datetime :=
  match x with
  | Text s => parse s
  | Stamp t => Some t
  | NaT => None
  end.

(** [to_month_start] on one cell. *)
Definition month_start_cell (x : datelike) : datetime :=
  match to_datetime x with
  | Some t => Some (Ts.month_start t)
  | None => None
  end.

(** [to_month_start(s)] on a column. *)
Definition to_month_start (s : list datelike) : list datetime :=
  map month_start_cell s.

End DateNormalizer.

(** ** Tables *)

(** A row of the table, over the type [D] of its [fecha] cells.  The
    [columns] of the frame say which fields exist; the code reads a field
    only behind a test on [columns]. *)
Record Row (D : Type) : Type := mkRow {
  fecha : D;
  sueldo_nominal_ars : float;
  usd_ars : float;
  cpi_ar : float;
  cpi_us : float
}.

Record DataFrame (D : Type) : Type := mkFrame {
  columns : list string;
  rows : list (Row D)
}.

(** ["c" in df.columns] *)
Definition has_column (D : Type) (c : string) (df : DataFrame D) : bool :=
  existsb (String.eqb c) (columns df).

(** The reference index as [fetch_cpi_us] returns it: after [dropna()] every
    entry has a month and a level. *)
Definition ReferenceIndex : Type := list (Timestamp * float).

(** The three ways the script stops early ([st.error] followed by
    [st.stop()]), with the message it shows.  A stage that can stop returns
    [stop + A]. *)
Inductive stop : Type :=
| SchemaError       (* "El archivo/hoja debe tener al menos las columnas: ..." *)
| EmptyRangeError   (* "No hay datos en el rango seleccionado." *)
| NoDerivableSeriesError. (* "Faltan series para graficar. ..." *)

(** ** SeriesMerger *)

Module Frame.

(** The order [sort_values("fecha")] sorts by: ascending, with [NaT] last
    ([na_position="last"]). *)
Definition fecha_leb (a b : datetime) : bool :=
  match a, b with
  | Some x, Some y => Ts.leb x y
  | Some _, None => true
  | None, Some _ => false
  | None, None => true
  end.

(** Chronological order of a table: every row is at or before every
    later row, rows without a month last. *)
Definition row_le (a b : Row datetime) : Prop :=
  fecha_leb (fecha a) (fecha b) = true.

Definition ascending (l : list (Row datetime)) : Prop :=
  StronglySorted row_le l.

Fixpoint insert (r : Row datetime) (l : list (Row datetime)) : list (Row datetime) :=
  match l with
  | [] => [r]
  | x :: l' =>
      if fecha_leb (fecha r) (fecha x) then r :: x :: l' else x :: insert r l'
  end.

(** The rows in ascending order of [fecha].  Rows of equal [fecha] keep
    their relative order here; pandas' default sort leaves the order of ties
    open, and no property below depends on it. *)
Definition sort_rows (l : list (Row datetime)) : list (Row datetime) :=
  fold_right insert [] l.

(** [df.sort_values("fecha")] *)
Definition sort_values (df : DataFrame datetime) : DataFrame datetime :=
  {| columns := columns df; rows := sort_rows (rows df) |}.

(** [df[keep]] on one row: a field outside [keep] is dropped, which this
    representation writes as a missing cell. *)
Definition select (keep : list string) (r : Row datetime) : Row datetime :=
  let cell (c : string) (v : float) : float :=
    if existsb (String.eqb c) keep then v else nan in
  {| fecha := fecha r;
     sueldo_nominal_ars := cell "sueldo_nominal_ars"%string (sueldo_nominal_ars r);
     usd_ars := cell "usd_ars"%string (usd_ars r);
     cpi_ar := cell "cpi_ar"%string (cpi_ar r);
     cpi_us := cell "cpi_us"%string (cpi_us r) |}.

Definition set_cpi_us (r : Row datetime) (v : float) : Row datetime :=
  {| fecha := fecha r;
     sueldo_nominal_ars := sueldo_nominal_ars r;
     usd_ars := usd_ars r;
     cpi_ar := cpi_ar r;
     cpi_us := v |}.

(** The entries of the reference index for the month of [d]. *)
Definition matches (cpi_us_df : ReferenceIndex) (d : datetime) : list (Timestamp * float) :=
  match d with
  | Some t => filter (fun e => Ts.eqb (fst e) t) cpi_us_df
  | None => []
  end.

(** [df.merge(cpi_us_df, on="fecha", how="left")] on one row: one output
    row per matching entry, or one row with a missing [cpi_us]. *)
Definition join_row (cpi_us_df : ReferenceIndex) (r : Row datetime) : list (Row datetime) :=
  match matches cpi_us_df (fecha r) with
  | [] => [set_cpi_us r nan]
  | ms => map (fun e => set_cpi_us r (snd e)) ms
  end.

Definition left_merge (l : list (Row datetime)) (cpi_us_df : ReferenceIndex) : list (Row datetime) :=
  flat_map (join_row cpi_us_df) l.

End Frame.

Section SeriesMerger.

Variable parse : string -> option Timestamp.

(** [df["fecha"] = to_month_start(df["fecha"])] on one row. *)
Definition normalize_row (r : Row datelike) : Row datetime :=
  {| fecha := month_start_cell parse (fecha r);
     sueldo_nominal_ars := sueldo_nominal_ars r;
     usd_ars := usd_ars r;
     cpi_ar := cpi_ar r;
     cpi_us := cpi_us r |}.

(** The list [keep] of line 44. *)
Definition keep_columns (D : Type) (df : DataFrame D) : list string :=
  ["fecha"; "sueldo_nominal_ars"]%string ++
  filter (fun c => has_column c df) ["usd_ars"; "cpi_ar"; "cpi_us"]%string.

(** [merge_all], for a reference table whose [fecha] column holds dates, as
    [fetch_cpi_us] returns it.  The fallback table of line 105 has the same
    (empty) content and an untyped key column; [df.merge] tells the two apart
    only when the input has no row either: see [merge_step]. *)
Definition merge_all (sueldos_df : DataFrame datelike) (cpi_us_df : ReferenceIndex)
  : stop + DataFrame datetime :=
  if negb (has_column "fecha" sueldos_df) || negb (has_column "sueldo_nominal_ars" sueldos_df)
  then inl SchemaError
  else
    let normalized := map normalize_row (rows sueldos_df) in
    let keep := keep_columns sueldos_df in
    let df := {| columns := keep;
                 rows := Frame.sort_rows (map (Frame.select keep) normalized) |} in
    if negb (has_column "cpi_us" df)
    then inr {| columns := columns df ++ ["cpi_us"%string];
                rows := Frame.left_merge (rows df) cpi_us_df |}
    else inr df.

(** Line 111: [df = merge_all(input_df, cpi_us_df).sort_values("fecha")]. *)
Definition merged_table (input_df : DataFrame datelike) (cpi_us_df : ReferenceIndex)
  : stop + DataFrame datetime :=
  match merge_all input_df cpi_us_df with
  | inl e => inl e
  | inr df => inr (Frame.sort_values df)
  end.

End SeriesMerger.

(** ** CommonRangeResolver *)

(** [df.dropna(subset=...)]: the rows on which every listed cell is present. *)
Definition dropna (subset : list (Row datetime -> float)) (l : list (Row datetime))
  : list (Row datetime) :=
  filter (fun r => forallb (fun col => Cell.notna (col r)) subset) l.

(** The guard of a series: each of its optional columns exists and has at
    least one cell present. *)
Definition available (df : DataFrame datetime) (needs : list (string * (Row datetime -> float)))
  : bool :=
  forallb (fun n => has_column (fst n) df && Cell.any_notna (map (snd n) (rows df))) needs.

(** The watermark of a series: the last month on which every required cell
    is present. *)
Definition watermark (df : DataFrame datetime) (subset : list (Row datetime -> float))
  : datetime :=
  Dt.max (map (@fecha datetime) (dropna subset (rows df))).

Definition ars_real_needs : list (string * (Row datetime -> float)) :=
  [("cpi_ar"%string, @cpi_ar datetime)].

Definition usd_real_needs : list (string * (Row datetime -> float)) :=
  [("usd_ars"%string, @usd_ars datetime); ("cpi_us"%string, @cpi_us datetime)].

Definition ars_real_subset : list (Row datetime -> float) :=
  [@sueldo_nominal_ars datetime; @cpi_ar datetime].

Definition usd_real_subset : list (Row datetime -> float) :=
  [@sueldo_nominal_ars datetime; @usd_ars datetime; @cpi_us datetime].

(** The dictionary [fechas], in insertion order. *)
Definition watermarks (df : DataFrame datetime) : list (string * datetime) :=
  (if available df ars_real_needs
   then [("ars_real"%string, watermark df ars_real_subset)] else []) ++
  (if available df usd_real_needs
   then [("usd_real"%string, watermark df usd_real_subset)] else []).

Definition compute_last_common_month (df : DataFrame datetime)
  : datetime * datetime * list (string * datetime) :=
  let fechas := watermarks df in
  let last_common :=
    match map snd fechas with
    | [] => Dt.max (map (@fecha datetime) (rows df))
    | x :: xs => Dt.py_min x xs
    end in
  let first := Dt.min (map (@fecha datetime) (rows df)) in
  (first, last_common, fechas).

(** The second component of the result: [last_common]. *)
Definition last_common_of (df : DataFrame datetime) : datetime :=
  snd (fst (compute_last_common_month df)).

(** ** Deflator *)

Definition deflate (series cpi cpi_base : float) : float :=
  (series * (cpi_base / cpi))%float.

(** [tmp.iloc[-1]] behind [if not tmp.empty]. *)
Fixpoint last_opt (A : Type) (l : list A) : option A :=
  match l with
  | [] => None
  | x :: l' =>
      match last_opt l' with
      | Some y => Some y
      | None => Some x
      end
  end.

(** [df.loc[(df["fecha"] >= start_date) & (df["fecha"] <= end_date)]] *)
Definition window (df : DataFrame datetime) (start_date end_date : datetime)
  : DataFrame datetime :=
  {| columns := columns df;
     rows := filter (fun r => Dt.leb start_date (fecha r) && Dt.leb (fecha r) end_date)
                    (rows df) |}.

(** The base level of an index column (lines 140-145): the last present
    cell among the rows of the window with [fecha <= base_month]. *)
Definition base_level (name : string) (col : Row datetime -> float)
  (df_r : DataFrame datetime) (base_month : datetime) : option float :=
  if has_column name df_r && Cell.any_notna (map col (rows df_r))
  then
    let tmp :=
      filter Cell.notna
             (map col (filter (fun r => Dt.leb (fecha r) base_month) (rows df_r))) in
    last_opt tmp
  else None.

(** The test a row passes to provide the base level of column [col]: its
    month is at or before the base month and its cell is present. *)
Definition provides (col : Row datetime -> float) (bm : datetime) (r : Row datetime) : bool :=
  Dt.leb (fecha r) bm && Cell.notna (col r).

Definition cpi_ar_base (df_r : DataFrame datetime) (base_month : datetime) : option float :=
  base_level "cpi_ar" (@cpi_ar datetime) df_r base_month.

Definition cpi_us_base (df_r : DataFrame datetime) (base_month : datetime) : option float :=
  base_level "cpi_us" (@cpi_us datetime) df_r base_month.

(** A row of [out]. *)
Record OutRow : Type := mkOut {
  out_fecha : datetime;
  out_sueldo_nominal_ars : float;
  ars_real : float;
  usd_nominal : float;
  usd_real : float
}.

(** The guard of line 155. *)
Definition has_fx (df_r : DataFrame datetime) : bool :=
  has_column "usd_ars" df_r && Cell.any_notna (map (@usd_ars datetime) (rows df_r)).

(** Lines 147-158 on one row, given the two resolved base levels. *)
Definition derive_row (ar_base us_base : option float) (fx : bool) (r : Row datetime)
  : OutRow :=
  let ars :=
    match ar_base with
    | Some b => (sueldo_nominal_ars r * (b / cpi_ar r))%float
    | None => nan
    end in
  let nominal := if fx then (sueldo_nominal_ars r / usd_ars r)%float else nan in
  let real :=
    if fx then
      match us_base with
      | Some b => (nominal * (b / cpi_us r))%float
      | None => nan
      end
    else nan in
  {| out_fecha := fecha r;
     out_sueldo_nominal_ars := sueldo_nominal_ars r;
     ars_real := ars;
     usd_nominal := nominal;
     usd_real := real |}.

(** The table [out]. *)
Definition derive (df_r : DataFrame datetime) (base_month : datetime) : list OutRow :=
  map (derive_row (cpi_ar_base df_r base_month) (cpi_us_base df_r base_month) (has_fx df_r))
      (rows df_r).

(** The list [series] of lines 160-162. *)
Definition series_of (out : list OutRow) : list string :=
  (if Cell.any_notna (map ars_real out) then ["ars_real"%string] else []) ++
  (if Cell.any_notna (map usd_real out) then ["usd_real"%string] else []).

Record Analysis : Type := mkAnalysis {
  df_r : DataFrame datetime;
  base_month : datetime;
  out : list OutRow;
  series : list string
}.

(** The computation of lines 124-162 with the two stops of lines 126-128
    and 166-168: the window, the base month ([None] for "last month of the
    range", or the month the user picked), the derived table and the series
    to plot.  The write of line 164, which comes before the second stop and
    needs a last common month, is part of [dashboard] below. *)
Definition analyse (df : DataFrame datetime) (start_date end_date : datetime)
  (base_choice : option Timestamp) : stop + Analysis :=
  let df_r := window df start_date end_date in
  match rows df_r with
  | [] => inl EmptyRangeError
  | _ :: _ =>
      let base_month :=
        match base_choice with
        | None => Dt.max (map (@fecha datetime) (rows df_r))
        | Some b => Some b
        end in
      let out := derive df_r base_month in
      let series := series_of out in
      match series with
      | [] => inl NoDerivableSeriesError
      | _ :: _ =>
          inr {| df_r := df_r; base_month := base_month; out := out; series := series |}
      end
  end.

(** ** Loading the reference index *)

Section ReferenceLoader.

Variable parse : string -> option Timestamp.

(** Lines 23-26 of [fetch_cpi_us], on the rows [(DATE, CPIAUCSL)] of the
    downloaded table: the date is normalised and [dropna()] keeps the rows
    that have both a month and a level. *)
Definition clean_reference (csv : list (datelike * float)) : ReferenceIndex :=
  flat_map
    (fun line =>
       match month_start_cell parse (fst line) with
       | Some t => if Cell.notna (snd line) then [(t, snd line)] else []
       | None => []
       end)
    csv.

(** Lines 105-109: the reference index is the fetched one, or the empty
    table when the fetch raised ([None]). *)
Definition load_reference (fetched : option (list (datelike * float))) : ReferenceIndex :=
  match fetched with
  | Some csv => clean_reference csv
  | None => []
  end.

End ReferenceLoader.

(** ** Selecting the range *)

(** Lines 119-122: the two dates of the date picker, or the default range
    when the picker did not return two dates. *)
Definition choose_range (start_default end_default : datetime)
  (date_range : list Timestamp) : datetime * datetime :=
  match date_range with
  | [a; b] => (Some a, Some b)
  | _ => (start_default, end_default)
  end.

(** ** The script *)

(** The exceptions that end the script with a traceback: the [ValueError]
    of [df.merge] on key columns of different dtypes, and the [ValueError] of
    [NaT.strftime]. *)
Inductive exception : Type :=
| MergeKeyError
| NaTFormatError.

(** What a part of the script does: it goes on with a value, stops with a
    message, or raises. *)
Inductive outcome (A : Type) : Type :=
| Returns (a : A)
| Stops (e : stop)
| Raises (x : exception).

Arguments Returns {A} a.
Arguments Stops {A} e.
Arguments Raises {A} x.

Section Script.

Variable parse : string -> option Timestamp.


End Script.

(** Lines 112 and 124-168 on the merged table: the window, the stop on an
    empty window, the derived table and the series, the write of the last
    common month (line 164, [strftime] raises on [NaT]), and the stop when
    there is no series to plot. *)
Definition dashboard (df : DataFrame datetime) (start_date end_date : datetime)
  (base_choice : option Timestamp) : outcome Analysis :=
  let last_common := last_common_of df in
  let df_r := window df start_date end_date in
  match rows df_r with
  | [] => Stops EmptyRangeError
  | _ :: _ =>
      let base_month :=
        match base_choice with
        | None => Dt.max (map (@fecha datetime) (rows df_r))
        | Some b => Some b
        end in
      let out := derive df_r base_month in
      let series := series_of out in
      match last_common with
      | None => Raises NaTFormatError
      | Some _ =>
          match series with
          | [] => Stops NoDerivableSeriesError
          | _ :: _ =>
              Returns {| df_r := df_r; base_month := base_month;
                         out := out; series := series |}
          end
      end
  end.

(** ** Summary of the series *)

(** The dictionary that [stats] returns, with its keys [promedio], [max],
    [min] and [ultimo]. *)
Record Stats : Type := mkStats {
  promedio : float;
  maximo : float;
  minimo : float;
  ultimo : float
}.

Section Summary.

(** [Series.mean()], on a series without missing cells. *)
Variable mean : list float -> float.

(** [Series.max()] and [Series.min()] on a non-empty series without missing
    cells; of two equal cells (the two zeros) the later one is returned. *)
Definition series_max (x : float) (xs : list float) : float :=
  fold_left (fun acc y => if (acc <=? y)%float then y else acc) xs x.

Definition series_min (x : float) (xs : list float) : float :=
  fold_left (fun acc y => if (y <=? acc)%float then y else acc) xs x.

(** [stats(s)] of lines 182-184. *)
Definition stats (s : list float) : option Stats :=
  match filter Cell.notna s with
  | [] => None
  | x :: xs =>
      Some {| promedio := mean (x :: xs);
              maximo := series_max x xs;
              minimo := series_min x xs;
              ultimo := List.last xs x |}
  end.

(** The list [rows] of lines 186-192: a summary row per plotted series. *)
Definition summary (out : list OutRow) (series : list string) : list (string * Stats) :=
  (if existsb (String.eqb "ars_real") series
   then match stats (map ars_real out) with
        | Some r => [("ARS real"%string, r)]
        | None => []
        end
   else []) ++
  (if existsb (String.eqb "usd_real") series
   then match stats (map usd_real out) with
        | Some r => [("USD real (ajustado)"%string, r)]
        | None => []
        end
   else []).

End Summary.

(** ** The resolver in the words of the specification *)

Module Spec.

(** A series is derivable when its required fields are all present on at
    least one row. *)
Definition derivable (df : DataFrame datetime) (subset : list (Row datetime -> float))
  : bool :=
  match dropna subset (rows df) with
  | [] => false
  | _ :: _ => true
  end.

(** The last common month: the minimum of the watermarks of the derivable
    series, or the last month of the table when no series is derivable. *)
Definition last_common_month (df : DataFrame datetime) : datetime :=
  let ws :=
    (if derivable df ars_real_subset then [watermark df ars_real_subset] else []) ++
    (if derivable df usd_real_subset then [watermark df usd_real_subset] else []) in
  match ws with
  | [] => Dt.max (map (@fecha datetime) (rows df))
  | _ :: _ => Dt.min ws
  end.

(** A cell made sparser: kept, or replaced with a missing value. *)
Definition sparser_cell (x x' : float) : Prop := x' = x \/ x' = nan.

Definition sparser_row (r r' : Row datetime) : Prop :=
  fecha r' = fecha r /\
  sparser_cell (sueldo_nominal_ars r) (sueldo_nominal_ars r') /\
  sparser_cell (usd_ars r) (usd_ars r') /\
  sparser_cell (cpi_ar r) (cpi_ar r') /\
  sparser_cell (cpi_us r) (cpi_us r').

(** A column accessor that reads one of the cells [sparser_row] speaks
    of. *)
Definition respects (col : Row datetime -> float) : Prop :=
  forall r r', sparser_row r r' -> sparser_cell (col r) (col r').

(** [df'] is [df] with some cells replaced with missing values. *)
Definition sparser (df df' : DataFrame datetime) : Prop :=
  columns df' = columns df /\ Forall2 sparser_row (rows df) (rows df').

End Spec.

(** ** Sample tables *)

Module Samples.

Definition ym (y m : Z) : Timestamp :=
  {| year := y; month := m; day := 1; nanos := 0 |}.

Definition on_day (y m d : Z) : Timestamp :=
  {| year := y; month := m; day := d; nanos := 0 |}.

(** A parser for the samples, which carry their dates as values. *)
Definition no_text (s : string) : option Timestamp := None.

Definition raw (d : datelike) (sueldo fx ar us : float) : Row datelike :=
  {| fecha := d; sueldo_nominal_ars := sueldo; usd_ars := fx; cpi_ar := ar; cpi_us := us |}.

Definition row (d : datetime) (sueldo fx ar us : float) : Row datetime :=
  {| fecha := d; sueldo_nominal_ars := sueldo; usd_ars := fx; cpi_ar := ar; cpi_us := us |}.

(** Scenario A: salary and local index only. *)
Definition scenario_a : DataFrame datelike :=
  {| columns := ["fecha"; "sueldo_nominal_ars"; "cpi_ar"]%string;
     rows := [ raw (Stamp (ym 2023 1)) 1000 nan 100 nan;
               raw (Stamp (ym 2023 2)) 1100 nan 110 nan ] |}.

(** Scenario B: the same salaries with an exchange rate and a foreign
    index. *)
Definition scenario_b : DataFrame datelike :=
  {| columns := ["fecha"; "sueldo_nominal_ars"; "usd_ars"; "cpi_us"]%string;
     rows := [ raw (Stamp (ym 2023 1)) 1000 200 nan 100;
               raw (Stamp (ym 2023 2)) 1100 220 nan 105 ] |}.

(** Scenario C: the local index is zero on the first row. *)
Definition scenario_c : DataFrame datelike :=
  {| columns := ["fecha"; "sueldo_nominal_ars"; "cpi_ar"]%string;
     rows := [ raw (Stamp (ym 2023 1)) 1000 nan 0 nan;
               raw (Stamp (ym 2023 2)) 1100 nan 110 nan ] |}.

Definition all_columns : list string :=
  ["fecha"; "sueldo_nominal_ars"; "usd_ars"; "cpi_ar"; "cpi_us"]%string.

(** The foreign series is complete in 2023-02; the local index is present
    only where the salary is missing. *)
Definition resolver_a : DataFrame datetime :=
  {| columns := all_columns;
     rows := [ row (Some (ym 2023 1)) nan 200 100 100;
               row (Some (ym 2023 2)) 1000 220 nan 105 ] |}.

(** No series has its required fields together on any row. *)
Definition resolver_b : DataFrame datetime :=
  {| columns := ["fecha"; "sueldo_nominal_ars"; "cpi_ar"; "cpi_us"]%string;
     rows := [ row (Some (ym 2023 1)) nan nan 100 nan;
               row (Some (ym 2023 2)) 1000 nan nan nan ] |}.

(** Both series derivable: the local one until 2023-01, the foreign one
    until 2023-02. *)
Definition resolver_c : DataFrame datetime :=
  {| columns := all_columns;
     rows := [ row (Some (ym 2023 1)) 1000 200 100 100;
               row (Some (ym 2023 2)) 1100 220 nan 105 ] |}.

(** [resolver_c] with its only local index cell removed. *)
Definition resolver_c_sparser : DataFrame datetime :=
  {| columns := all_columns;
     rows := [ row (Some (ym 2023 1)) 1000 200 nan 100;
               row (Some (ym 2023 2)) 1100 220 nan 105 ] |}.

(** A reference index with a level for 2023-01 and 2023-02. *)
Definition fred : ReferenceIndex :=
  [ (ym 2023 1, 299.5%float); (ym 2023 2, 300.75%float) ].

(** An input that brings its own foreign index, rows out of order. *)
Definition with_foreign : DataFrame datelike :=
  {| columns := ["fecha"; "sueldo_nominal_ars"; "usd_ars"; "cpi_us"]%string;
     rows := [ raw (Stamp (on_day 2023 2 15)) 1100 220 nan 105;
               raw (Stamp (ym 2023 1)) 1000 200 nan 100 ] |}.

(** An input without a foreign index; 2023-03 is not in [fred]. *)
Definition without_foreign : DataFrame datelike :=
  {| columns := ["fecha"; "sueldo_nominal_ars"; "usd_ars"]%string;
     rows := [ raw (Stamp (ym 2023 1)) 1000 200 nan nan;
               raw (Stamp (ym 2023 3)) 1200 240 nan nan ] |}.

(** Two rows of the same month. *)
Definition same_month : DataFrame datelike :=
  {| columns := ["fecha"; "sueldo_nominal_ars"]%string;
     rows := [ raw (Stamp (on_day 2023 1 5)) 1000 nan nan nan;
               raw (Stamp (on_day 2023 1 20)) 1100 nan nan nan ] |}.

(** An input whose [cpi_us] column exists and is empty. *)
Definition foreign_blank : DataFrame datelike :=
  {| columns := ["fecha"; "sueldo_nominal_ars"; "usd_ars"; "cpi_us"]%string;
     rows := [ raw (Stamp (ym 2023 1)) 1000 200 nan nan;
               raw (Stamp (ym 2023 2)) 1100 220 nan nan ] |}.

(** The local index is missing in 2023-02. *)
Definition index_gap : DataFrame datetime :=
  {| columns := ["fecha"; "sueldo_nominal_ars"; "cpi_ar"; "cpi_us"]%string;
     rows := [ row (Some (ym 2023 3)) 1200 nan 120 nan;
               row (Some (ym 2023 1)) 1000 nan 100 nan;
               row (Some (ym 2023 2)) 1100 nan nan nan ] |}.

(** The local series is complete in 2023-02; the exchange rate and the
    foreign index are each present, never on the same row. *)
Definition resolver_d : DataFrame datetime :=
  {| columns := all_columns;
     rows := [ row (Some (ym 2023 1)) 1000 nan 100 100;
               row (Some (ym 2023 2)) 1100 220 110 nan ] |}.



(** The table [out] for an input, the whole range and "last month of the
    range" as base. *)
Definition run (input_df : DataFrame datelike) (cpi_us_df : ReferenceIndex)
  (start_date end_date : datetime) : option (list OutRow) :=
  match merged_table no_text input_df cpi_us_df with
  | inl _ => None
  | inr df =>
      match analyse df start_date end_date None with
      | inl _ => None
      | inr a => Some (out a)
      end
  end.

End Samples.

(** * Properties *)

(** ** Facts on binary64 cells *)

Module CellFacts.

Lemma Prim2SF_nan : Prim2SF nan = S754_nan.
Proof. reflexivity. Qed.

Lemma is_nan_spec (x : float) : is_nan x = true <-> Prim2SF x = S754_nan.
Proof.
  unfold is_nan. rewrite eqb_spec. unfold SFeqb, SFcompare.
  destruct (Prim2SF x) as [s | s | | s m e]; simpl.
  - split; discriminate.
  - destruct s; split; discriminate.
  - split; reflexivity.
  - rewrite Z.compare_refl, Pos.compare_cont_refl.
    destruct s; split; discriminate.
Qed.

Lemma is_nan_eq (x : float) : is_nan x = true <-> x = nan.
Proof.
  rewrite is_nan_spec. split; intros H.
  - apply Prim2SF_inj. rewrite H. reflexivity.
  - rewrite H. reflexivity.
Qed.

Lemma notna_false (x : float) : Cell.notna x = false <-> x = nan.
Proof.
  unfold Cell.notna. rewrite negb_false_iff. apply is_nan_eq.
Qed.

Lemma mul_nan_l (y : float) : (nan * y)%float = nan.
Proof.
  apply Prim2SF_inj. rewrite mul_spec, Prim2SF_nan. reflexivity.
Qed.

Lemma mul_nan_r (x : float) : (x * nan)%float = nan.
Proof.
  apply Prim2SF_inj. rewrite mul_spec, Prim2SF_nan.
  unfold SF64mul, SFmul. destruct (Prim2SF x); reflexivity.
Qed.

Lemma div_nan_r (x : float) : (x / nan)%float = nan.
Proof.
  apply Prim2SF_inj. rewrite div_spec, Prim2SF_nan.
  unfold SF64div, SFdiv. destruct (Prim2SF x); reflexivity.
Qed.

Lemma div_nan_l (y : float) : (nan / y)%float = nan.
Proof.
  apply Prim2SF_inj. rewrite div_spec, Prim2SF_nan. reflexivity.
Qed.

Lemma is_zero_spec (x : float) :
  is_zero x = true <-> exists s, Prim2SF x = S754_zero s.
Proof.
  unfold is_zero. rewrite eqb_spec.
  change (Prim2SF zero) with (S754_zero false).
  unfold SFeqb, SFcompare.
  destruct (Prim2SF x) as [s | s | | s m e]; simpl.
  - split; eauto.
  - destruct s; split; try discriminate; intros [s' H]; discriminate.
  - split; try discriminate; intros [s' H]; discriminate.
  - destruct s; split; try discriminate; intros [s' H]; discriminate.
Qed.

Lemma is_infinity_spec (x : float) :
  is_infinity x = true <-> exists s, Prim2SF x = S754_infinity s.
Proof.
  unfold is_infinity. rewrite eqb_spec, abs_spec.
  change (Prim2SF infinity) with (S754_infinity false).
  unfold SFeqb, SFcompare, SFabs.
  destruct (Prim2SF x) as [s | s | | s m e]; simpl.
  - split; try discriminate; intros [s' H]; discriminate.
  - split; eauto.
  - split; try discriminate; intros [s' H]; discriminate.
  - split; try discriminate; intros [s' H]; discriminate.
Qed.

(** An infinity is a present cell. *)
Lemma is_infinity_notna (x : float) : is_infinity x = true -> Cell.notna x = true.
Proof.
  intros H. apply is_infinity_spec in H. destruct H as [s H].
  unfold Cell.notna. destruct (is_nan x) eqn:E; [| reflexivity].
  apply is_nan_spec in E. congruence.
Qed.

(** IEEE division of a present, non-zero value by zero is an infinity. *)
Lemma div_zero_infinity (b c : float) :
  is_zero c = true -> Cell.notna b = true -> is_zero b = false ->
  is_infinity (b / c)%float = true.
Proof.
  intros Hc Hb Hbz.
  apply is_zero_spec in Hc. destruct Hc as [sc Hc].
  apply is_infinity_spec. rewrite div_spec, Hc.
  unfold SF64div, SFdiv.
  destruct (Prim2SF b) as [s | s | | s m e] eqn:E.
  - assert (is_zero b = true) by (apply is_zero_spec; eauto). congruence.
  - eauto.
  - assert (is_nan b = true) by (apply is_nan_spec; exact E).
    unfold Cell.notna in Hb. rewrite H in Hb. discriminate.
  - eauto.
Qed.

(** IEEE product of a present, non-zero value and an infinity. *)
Lemma mul_infinity (s i : float) :
  is_infinity i = true -> Cell.notna s = true -> is_zero s = false ->
  is_infinity (s * i)%float = true.
Proof.
  intros Hi Hs Hsz.
  apply is_infinity_spec in Hi. destruct Hi as [si Hi].
  apply is_infinity_spec. rewrite mul_spec, Hi.
  unfold SF64mul, SFmul.
  destruct (Prim2SF s) as [z | z | | z m e] eqn:E.
  - assert (is_zero s = true) by (apply is_zero_spec; eauto). congruence.
  - eauto.
  - assert (is_nan s = true) by (apply is_nan_spec; exact E).
    unfold Cell.notna in Hs. rewrite H in Hs. discriminate.
  - eauto.
Qed.

(** A whole column without a present cell is a column of NaN. *)
Lemma any_notna_false (xs : list float) :
  Cell.any_notna xs = false -> forall x, In x xs -> x = nan.
Proof.
  unfold Cell.any_notna. intros H x Hx.
  apply notna_false.
  destruct (Cell.notna x) eqn:E; [| reflexivity].
  assert (existsb Cell.notna xs = true) by (apply existsb_exists; eauto).
  congruence.
Qed.

Lemma any_notna_true (xs : list float) :
  Cell.any_notna xs = true <-> exists x, In x xs /\ Cell.notna x = true.
Proof. apply existsb_exists. Qed.

End CellFacts.

(** ** Deflation arithmetic *)

Lemma nth_error_derive (df : DataFrame datetime) (bm : datetime) (i : nat) (r : Row datetime) :
  nth_error (rows df) i = Some r ->
  nth_error (derive df bm) i =
    Some (derive_row (cpi_ar_base df bm) (cpi_us_base df bm) (has_fx df) r).
Proof.
  intros H. unfold derive. rewrite nth_error_map, H. reflexivity.
Qed.

Lemma has_fx_false_usd_ars (df : DataFrame datetime) (r : Row datetime) :
  has_column "usd_ars" df = true -> has_fx df = false -> In r (rows df) ->
  usd_ars r = nan.
Proof.
  unfold has_fx. intros Hc Hfx Hr. rewrite Hc in Hfx. simpl in Hfx.
  apply (CellFacts.any_notna_false _ Hfx). apply in_map. exact Hr.
Qed.

(** C1: on every row of the range-filtered table, with the base levels that
    were resolved, [ars_real] is [sueldo_nominal_ars * (cpi_ar_base / cpi_ar)],
    [usd_nominal] is [sueldo_nominal_ars / usd_ars] and [usd_real] is
    [usd_nominal * (cpi_us_base / cpi_us)]; Scenarios A and B give exactly
    [1100, 1100], [5, 5] and [5.25, 5]. *)
Theorem derived_series_formulas :
  (forall (df : DataFrame datetime) (bm : datetime) (i : nat) (r : Row datetime),
      nth_error (rows df) i = Some r ->
      exists o,
        nth_error (derive df bm) i = Some o /\
        out_fecha o = fecha r /\
        out_sueldo_nominal_ars o = sueldo_nominal_ars r /\
        (forall b, cpi_ar_base df bm = Some b ->
                   ars_real o = deflate (sueldo_nominal_ars r) (cpi_ar r) b /\
                   ars_real o = (sueldo_nominal_ars r * (b / cpi_ar r))%float) /\
        (has_column "usd_ars" df = true ->
         usd_nominal o = (sueldo_nominal_ars r / usd_ars r)%float) /\
        (forall b, cpi_us_base df bm = Some b ->
                   usd_real o = deflate (usd_nominal o) (cpi_us r) b /\
                   usd_real o = (usd_nominal o * (b / cpi_us r))%float)) /\
  option_map (map ars_real)
    (Samples.run Samples.scenario_a [] (Some (Samples.ym 2023 1)) (Some (Samples.ym 2023 2)))
  = Some [1100; 1100]%float /\
  option_map (map usd_nominal)
    (Samples.run Samples.scenario_b [] (Some (Samples.ym 2023 1)) (Some (Samples.ym 2023 2)))
  = Some [5; 5]%float /\
  option_map (map usd_real)
    (Samples.run Samples.scenario_b [] (Some (Samples.ym 2023 1)) (Some (Samples.ym 2023 2)))
  = Some [5.25; 5]%float.
Proof.
  split; [| repeat split; vm_compute; reflexivity].
  intros df bm i r Hi.
  eexists. split; [apply nth_error_derive; exact Hi |].
  assert (Hin : In r (rows df)) by (eapply nth_error_In; eauto).
  unfold derive_row, deflate; simpl.
  split; [reflexivity |]. split; [reflexivity |].
  split; [| split].
  - intros b Hb. rewrite Hb. split; reflexivity.
  - intros Hc. destruct (has_fx df) eqn:Hfx; [reflexivity |].
    rewrite (has_fx_false_usd_ars df r Hc Hfx Hin).
    symmetry. apply CellFacts.div_nan_r.
  - intros b Hb. rewrite Hb. destruct (has_fx df).
    + split; reflexivity.
    + split; symmetry; apply CellFacts.mul_nan_l.
Qed.

Lemma derived_series_formulas_witness :
  exists o,
    nth_error (derive (window (Frame.sort_values
                 {| columns := ["fecha"; "sueldo_nominal_ars"; "cpi_ar"]%string;
                    rows := [Samples.row (Some (Samples.ym 2023 1)) 1000 nan 100 nan;
                             Samples.row (Some (Samples.ym 2023 2)) 1100 nan 110 nan] |})
                 (Some (Samples.ym 2023 1)) (Some (Samples.ym 2023 2)))
              (Some (Samples.ym 2023 2))) 0 = Some o /\
    ars_real o = 1100%float.
Proof.
  destruct (proj1 derived_series_formulas
              (window (Frame.sort_values
                 {| columns := ["fecha"; "sueldo_nominal_ars"; "cpi_ar"]%string;
                    rows := [Samples.row (Some (Samples.ym 2023 1)) 1000 nan 100 nan;
                             Samples.row (Some (Samples.ym 2023 2)) 1100 nan 110 nan] |})
                 (Some (Samples.ym 2023 1)) (Some (Samples.ym 2023 2)))
              (Some (Samples.ym 2023 2)) 0%nat
              (Samples.row (Some (Samples.ym 2023 1)) 1000 nan 100 nan)
              eq_refl) as [o [Ho [_ [_ [Hars _]]]]].
  exists o. split; [exact Ho |].
  destruct (Hars 110%float eq_refl) as [_ E]. rewrite E. reflexivity.
Defined.

(** ** The last present cell *)

Lemma last_opt_None (A : Type) (l : list A) : last_opt l = None -> l = [].
Proof.
  destruct l as [| x l]; [reflexivity |].
  simpl. destruct (last_opt l); discriminate.
Qed.

Lemma last_opt_In (A : Type) (l : list A) (x : A) : last_opt l = Some x -> In x l.
Proof.
  induction l as [| y l IH]; simpl; [discriminate |].
  destruct (last_opt l) as [z |] eqn:E; intros H; inversion H; subst; auto.
Qed.

Lemma last_opt_map (A B : Type) (f : A -> B) (l : list A) :
  last_opt (map f l) = option_map f (last_opt l).
Proof.
  induction l as [| y l IH]; simpl; [reflexivity |].
  rewrite IH. destruct (last_opt l); reflexivity.
Qed.

(** The last element that passes a filter splits the list: nothing after it
    passes. *)
Lemma last_opt_filter (A : Type) (P : A -> bool) (l : list A) (x : A) :
  last_opt (filter P l) = Some x ->
  exists l1 l2, l = l1 ++ x :: l2 /\ P x = true /\ forallb (fun y => negb (P y)) l2 = true.
Proof.
  induction l as [| y l IH]; simpl; [discriminate |].
  destruct (P y) eqn:Py; simpl.
  - destruct (last_opt (filter P l)) as [z |] eqn:E; intros H; inversion H; subst.
    + destruct (IH eq_refl) as [l1 [l2 [Hl [Hx Hn]]]].
      exists (y :: l1), l2. subst l. auto.
    + exists [], l. repeat split; auto.
      apply last_opt_None in E.
      clear -E. induction l as [| z l IH]; simpl in *; [reflexivity |].
      destruct (P z); [discriminate | simpl; auto].
  - intros H. destruct (IH H) as [l1 [l2 [Hl [Hx Hn]]]].
    exists (y :: l1), l2. subst l. auto.
Qed.

Lemma last_opt_filter_None (A : Type) (P : A -> bool) (l : list A) :
  last_opt (filter P l) = None <-> forall y, In y l -> P y = false.
Proof.
  split.
  - intros H y Hy. apply last_opt_None in H.
    destruct (P y) eqn:E; [| reflexivity].
    assert (In y (filter P l)) by (apply filter_In; auto).
    rewrite H in H0. destruct H0.
  - intros H. induction l as [| y l IH]; simpl; [reflexivity |].
    rewrite (H y (or_introl eq_refl)). apply IH. intros z Hz. apply H. right. exact Hz.
Qed.

Lemma base_level_tmp (col : Row datetime -> float) (bm : datetime) (l : list (Row datetime)) :
  filter Cell.notna (map col (filter (fun r => Dt.leb (fecha r) bm) l)) =
  map col (filter (provides col bm) l).
Proof.
  induction l as [| r l IH]; simpl; [reflexivity |].
  unfold provides at 1. destruct (Dt.leb (fecha r) bm); simpl; [| exact IH].
  destruct (Cell.notna (col r)); simpl; [f_equal |]; exact IH.
Qed.

(** A resolved base level is the cell of some row of the window that
    provides it, and no later row of the table provides one. *)
Lemma base_level_Some (name : string) (col : Row datetime -> float)
  (df : DataFrame datetime) (bm : datetime) (b : float) :
  base_level name col df bm = Some b ->
  exists l1 r l2,
    rows df = l1 ++ r :: l2 /\ col r = b /\ provides col bm r = true /\
    forallb (fun y => negb (provides col bm y)) l2 = true.
Proof.
  unfold base_level.
  destruct (has_column name df && Cell.any_notna (map col (rows df))); [| discriminate].
  rewrite base_level_tmp, last_opt_map.
  destruct (last_opt (filter (provides col bm) (rows df))) as [r |] eqn:E; [| discriminate].
  simpl. intros H. inversion H; subst.
  destruct (last_opt_filter _ _ E) as [l1 [l2 [Hl [Hr Hn]]]].
  exists l1, r, l2. auto.
Qed.

Lemma base_level_notna (name : string) (col : Row datetime -> float)
  (df : DataFrame datetime) (bm : datetime) (b : float) :
  base_level name col df bm = Some b -> Cell.notna b = true.
Proof.
  intros H. destruct (base_level_Some _ _ _ _ H) as [l1 [r [l2 [_ [Hb [Hp _]]]]]].
  unfold provides in Hp. apply andb_true_iff in Hp. destruct Hp as [_ Hp]. congruence.
Qed.

Lemma base_level_None (name : string) (col : Row datetime -> float)
  (df : DataFrame datetime) (bm : datetime) :
  base_level name col df bm = None <->
  has_column name df = false \/ forall r, In r (rows df) -> provides col bm r = false.
Proof.
  unfold base_level.
  destruct (has_column name df) eqn:Hc; simpl.
  - destruct (Cell.any_notna (map col (rows df))) eqn:Ha.
    + rewrite base_level_tmp, last_opt_map.
      destruct (last_opt (filter (provides col bm) (rows df))) as [r |] eqn:E; simpl.
      * split; [discriminate |]. intros [H | H]; [discriminate |].
        destruct (last_opt_filter _ _ E) as [l1 [l2 [Hl [Hr _]]]].
        rewrite H in Hr; [discriminate |]. rewrite Hl. apply in_or_app. right. left. reflexivity.
      * split; auto. intros _. right. apply last_opt_filter_None. exact E.
    + split; auto. intros _. right. intros r Hr. unfold provides.
      assert (col r = nan) by (apply (CellFacts.any_notna_false _ Ha); apply in_map; exact Hr).
      rewrite H. apply andb_false_r.
  - split; auto.
Qed.

(** ** Zero and missing index levels *)

Lemma deflate_nan_index (s b : float) : deflate s nan b = nan.
Proof.
  unfold deflate. rewrite CellFacts.div_nan_r. apply CellFacts.mul_nan_r.
Qed.

Lemma deflate_zero_index (s c b : float) :
  is_zero c = true ->
  Cell.notna s = true -> is_zero s = false ->
  Cell.notna b = true -> is_zero b = false ->
  is_infinity (deflate s c b) = true.
Proof.
  intros Hc Hs Hsz Hb Hbz. unfold deflate.
  apply CellFacts.mul_infinity; auto.
  apply CellFacts.div_zero_infinity; auto.
Qed.

(** C2, as the spec states it, fails on Scenario C: with [cpi_ar = 0] on
    the first row, base level 110 and salary 1000, the first [ars_real] is
    [+infinity], which [notna] counts as a present value, and the series is
    plotted. *)
Lemma zero_index_counterexample :
  option_map (map ars_real)
    (Samples.run Samples.scenario_c [] (Some (Samples.ym 2023 1)) (Some (Samples.ym 2023 2)))
  = Some [infinity; 1100%float] /\
  is_nan infinity = false /\
  ~ (forall (df : DataFrame datetime) (bm : datetime) (r : Row datetime) (o : OutRow),
        In (r, o) (combine (rows df) (derive df bm)) ->
        is_zero (cpi_ar r) = true \/ is_nan (cpi_ar r) = true ->
        is_nan (ars_real o) = true).
Proof.
  split; [vm_compute; reflexivity |].
  split; [vm_compute; reflexivity |].
  intros H.
  specialize (H {| columns := ["fecha"; "sueldo_nominal_ars"; "cpi_ar"; "cpi_us"]%string;
                   rows := [Samples.row (Some (Samples.ym 2023 1)) 1000 nan 0 nan;
                            Samples.row (Some (Samples.ym 2023 2)) 1100 nan 110 nan] |}
                (Some (Samples.ym 2023 2))
                (Samples.row (Some (Samples.ym 2023 1)) 1000 nan 0 nan)
                {| out_fecha := Some (Samples.ym 2023 1); out_sueldo_nominal_ars := 1000;
                   ars_real := infinity; usd_nominal := nan; usd_real := nan |}).
  assert (E : is_nan infinity = true).
  { apply H; [left; reflexivity | left; reflexivity]. }
  vm_compute in E. discriminate.
Qed.

(** C2, amended: the derived table always exists (no error is raised); on
    a row whose index cell is missing the deflated value is missing; on a
    row whose index cell is zero the deflated value is an infinity, hence a
    present value, whenever the nominal value and the base level are present
    and non-zero. *)
Theorem index_missing_or_zero (df : DataFrame datetime) (bm : datetime) (i : nat)
  (r : Row datetime) :
  nth_error (rows df) i = Some r ->
  exists o,
    nth_error (derive df bm) i = Some o /\
    (is_nan (cpi_ar r) = true -> is_nan (ars_real o) = true) /\
    (is_nan (cpi_us r) = true -> is_nan (usd_real o) = true) /\
    (forall b, cpi_ar_base df bm = Some b ->
       is_zero (cpi_ar r) = true ->
       Cell.notna (sueldo_nominal_ars r) = true -> is_zero (sueldo_nominal_ars r) = false ->
       is_zero b = false ->
       is_infinity (ars_real o) = true /\ Cell.notna (ars_real o) = true) /\
    (forall b, cpi_us_base df bm = Some b ->
       has_fx df = true ->
       is_zero (cpi_us r) = true ->
       Cell.notna (usd_nominal o) = true -> is_zero (usd_nominal o) = false ->
       is_zero b = false ->
       is_infinity (usd_real o) = true /\ Cell.notna (usd_real o) = true).
Proof.
  intros Hi. eexists. split; [apply nth_error_derive; exact Hi |].
  unfold derive_row; simpl.
  split; [| split; [| split]].
  - intros Hn. apply CellFacts.is_nan_eq in Hn. apply CellFacts.is_nan_eq.
    destruct (cpi_ar_base df bm) as [b |]; [| reflexivity].
    rewrite Hn. apply deflate_nan_index.
  - intros Hn. apply CellFacts.is_nan_eq in Hn. apply CellFacts.is_nan_eq.
    destruct (has_fx df); [| reflexivity].
    destruct (cpi_us_base df bm) as [b |]; [| reflexivity].
    rewrite Hn. apply deflate_nan_index.
  - intros b Hb Hz Hs Hsz Hbz. rewrite Hb.
    assert (Hinf : is_infinity (deflate (sueldo_nominal_ars r) (cpi_ar r) b) = true).
    { apply deflate_zero_index; auto. eapply base_level_notna; exact Hb. }
    split; [exact Hinf | apply CellFacts.is_infinity_notna; exact Hinf].
  - intros b Hb Hfx Hz Hs Hsz Hbz. rewrite Hb, Hfx in *.
    assert (Hinf : is_infinity
              (deflate (sueldo_nominal_ars r / usd_ars r)%float (cpi_us r) b) = true).
    { apply deflate_zero_index; auto. eapply base_level_notna; exact Hb. }
    split; [exact Hinf | apply CellFacts.is_infinity_notna; exact Hinf].
Qed.

Lemma index_missing_or_zero_witness :
  exists o,
    nth_error (derive {| columns := ["fecha"; "sueldo_nominal_ars"; "cpi_ar"; "cpi_us"]%string;
                         rows := [Samples.row (Some (Samples.ym 2023 1)) 1000 nan 0 nan;
                                  Samples.row (Some (Samples.ym 2023 2)) 1100 nan 110 nan] |}
                      (Some (Samples.ym 2023 2))) 0 = Some o /\
    is_infinity (ars_real o) = true /\ is_nan (usd_real o) = true.
Proof.
  destruct (@index_missing_or_zero
              {| columns := ["fecha"; "sueldo_nominal_ars"; "cpi_ar"; "cpi_us"]%string;
                 rows := [Samples.row (Some (Samples.ym 2023 1)) 1000 nan 0 nan;
                          Samples.row (Some (Samples.ym 2023 2)) 1100 nan 110 nan] |}
              (Some (Samples.ym 2023 2)) 0%nat
              (Samples.row (Some (Samples.ym 2023 1)) 1000 nan 0 nan) eq_refl)
    as [o [Ho [_ [Hus [Hz _]]]]].
  exists o. split; [exact Ho |]. split.
  - apply (Hz 110%float); reflexivity.
  - apply Hus. reflexivity.
Defined.

(** ** The order on timestamps *)

Module TsFacts.

Ltac by_cases a b :=
  unfold Ts.leb, Ts.ltb, Ts.eqb, Ts.compare, Ts.le, Ts.lt;
  destruct (Z.compare_spec (year a) (year b));
  [ destruct (Z.compare_spec (month a) (month b));
    [ destruct (Z.compare_spec (day a) (day b));
      [ destruct (Z.compare_spec (nanos a) (nanos b)) | | ] | | ] | | ];
  split; intros; try discriminate; try reflexivity; try lia.

Lemma leb_le (a b : Timestamp) : Ts.leb a b = true <-> Ts.le a b.
Proof. by_cases a b. Qed.

Lemma ltb_lt (a b : Timestamp) : Ts.ltb a b = true <-> Ts.lt a b.
Proof. by_cases a b. Qed.

Lemma eqb_eq (a b : Timestamp) : Ts.eqb a b = true <-> a = b.
Proof.
  destruct a as [ya ma da na], b as [yb mb db nb].
  unfold Ts.eqb, Ts.compare; simpl.
  destruct (Z.compare_spec ya yb);
    [ destruct (Z.compare_spec ma mb);
      [ destruct (Z.compare_spec da db);
        [ destruct (Z.compare_spec na nb) | | ] | | ] | | ];
    split; intros E; try discriminate; try (subst; reflexivity);
    inversion E; lia.
Qed.

Lemma leb_refl (a : Timestamp) : Ts.leb a a = true.
Proof. apply leb_le. unfold Ts.le. lia. Qed.

Lemma leb_trans (a b c : Timestamp) :
  Ts.leb a b = true -> Ts.leb b c = true -> Ts.leb a c = true.
Proof. rewrite !leb_le. unfold Ts.le. lia. Qed.

Lemma leb_total (a b : Timestamp) : Ts.leb a b = true \/ Ts.leb b a = true.
Proof. rewrite !leb_le. unfold Ts.le. lia. Qed.

Lemma leb_antisym (a b : Timestamp) :
  Ts.leb a b = true -> Ts.leb b a = true -> a = b.
Proof.
  rewrite !leb_le. unfold Ts.le. destruct a, b; simpl. intros H1 H2.
  f_equal; lia.
Qed.

Lemma ltb_false_leb (a b : Timestamp) : Ts.ltb a b = false <-> Ts.leb b a = true.
Proof.
  rewrite leb_le. split.
  - intros H. destruct (Ts.leb b a) eqn:E; [apply leb_le; exact E |].
    exfalso. assert (Ts.lt a b).
    { destruct (leb_total a b) as [L | L]; [| congruence].
      apply leb_le in L. unfold Ts.le, Ts.lt in *.
      assert (~ Ts.le b a) by (intros C; apply leb_le in C; congruence).
      unfold Ts.le in *. lia. }
    apply ltb_lt in H0. congruence.
  - intros H. destruct (Ts.ltb a b) eqn:E; [| reflexivity].
    apply ltb_lt in E. unfold Ts.le, Ts.lt in *. lia.
Qed.

Lemma ltb_leb (a b : Timestamp) : Ts.ltb a b = true -> Ts.leb a b = true.
Proof. rewrite ltb_lt, leb_le. unfold Ts.le, Ts.lt. lia. Qed.

Lemma month_start_idem (t : Timestamp) :
  Ts.month_start (Ts.month_start t) = Ts.month_start t.
Proof. reflexivity. Qed.

Lemma month_start_leb (t : Timestamp) :
  (0 <= nanos t)%Z -> (1 <= day t)%Z -> Ts.leb (Ts.month_start t) t = true.
Proof. intros Hn Hd. apply leb_le. unfold Ts.le, Ts.month_start; simpl. lia. Qed.

End TsFacts.

(** ** Sorting and joining *)

Module FrameFacts.

Import Frame.


Lemma fecha_leb_trans (a b c : datetime) :
  fecha_leb a b = true -> fecha_leb b c = true -> fecha_leb a c = true.
Proof.
  destruct a, b, c; simpl; try discriminate; auto.
  apply TsFacts.leb_trans.
Qed.

Lemma fecha_leb_total (a b : datetime) : fecha_leb a b = true \/ fecha_leb b a = true.
Proof.
  destruct a, b; simpl; auto. apply TsFacts.leb_total.
Qed.

Lemma row_le_trans (a b c : Row datetime) : row_le a b -> row_le b c -> row_le a c.
Proof. unfold row_le. apply fecha_leb_trans. Qed.

Lemma insert_perm (r : Row datetime) (l : list (Row datetime)) :
  Permutation (insert r l) (r :: l).
Proof.
  induction l as [| x l IH]; simpl; [apply Permutation_refl |].
  destruct (fecha_leb (fecha r) (fecha x)); [apply Permutation_refl |].
  eapply perm_trans; [apply perm_skip; exact IH | apply perm_swap].
Qed.

Lemma sort_rows_perm (l : list (Row datetime)) : Permutation (sort_rows l) l.
Proof.
  induction l as [| x l IH]; simpl; [apply perm_nil |].
  eapply perm_trans; [apply insert_perm | apply perm_skip; exact IH].
Qed.

Lemma insert_ascending (r : Row datetime) (l : list (Row datetime)) :
  ascending l -> ascending (insert r l).
Proof.
  unfold ascending. induction l as [| x l IH]; simpl; intros H.
  - constructor; constructor.
  - inversion H as [| ? ? Hl Hx]; subst.
    destruct (fecha_leb (fecha r) (fecha x)) eqn:E.
    + constructor; [exact H |].
      constructor; [exact E |].
      eapply Forall_impl; [| exact Hx].
      intros y Hy. eapply row_le_trans; [exact E | exact Hy].
    + constructor; [apply IH; exact Hl |].
      assert (Hxr : row_le x r).
      { destruct (fecha_leb_total (fecha r) (fecha x)) as [C | C]; [congruence | exact C]. }
      eapply Permutation_Forall; [apply Permutation_sym, insert_perm |].
      constructor; assumption.
Qed.

Lemma sort_rows_ascending (l : list (Row datetime)) : ascending (sort_rows l).
Proof.
  induction l as [| x l IH]; simpl; [constructor |].
  apply insert_ascending. exact IH.
Qed.

Lemma filter_ascending (P : Row datetime -> bool) (l : list (Row datetime)) :
  ascending l -> ascending (filter P l).
Proof.
  unfold ascending. induction 1 as [| x l Hl IH Hx]; simpl; [constructor |].
  destruct (P x); [| exact IH].
  constructor; [exact IH |].
  apply Forall_forall. intros y Hy. apply filter_In in Hy.
  rewrite Forall_forall in Hx. apply Hx. tauto.
Qed.

(** In a sorted table a row is at or before every row that follows it. *)
Lemma ascending_app (l1 l2 : list (Row datetime)) (r : Row datetime) :
  ascending (l1 ++ r :: l2) ->
  (forall x, In x l1 -> row_le x r) /\ (forall y, In y l2 -> row_le r y).
Proof.
  unfold ascending. induction l1 as [| a l1 IH]; simpl; intros H.
  - inversion H as [| ? ? _ Hr]; subst. split; [intros x [] |].
    rewrite Forall_forall in Hr. exact Hr.
  - inversion H as [| ? ? Hl Ha]; subst.
    destruct (IH Hl) as [H1 H2]. split; [| exact H2].
    intros x [Hx | Hx]; [subst x | auto].
    rewrite Forall_forall in Ha. apply Ha. apply in_or_app. right. left. reflexivity.
Qed.

(** The rows a row joins to carry its month. *)
Lemma join_row_fecha (ref : ReferenceIndex) (r x : Row datetime) :
  In x (join_row ref r) -> fecha x = fecha r.
Proof.
  unfold join_row. destruct (matches ref (fecha r)) as [| e ms].
  - intros [H | []]. subst x. reflexivity.
  - intros H. apply in_map_iff in H. destruct H as [e' [H _]]. subst x. reflexivity.
Qed.


End FrameFacts.

(** ** Resolution of the base level *)

Lemma window_ascending (df : DataFrame datetime) (s e : datetime) :
  Frame.ascending (rows (window (Frame.sort_values df) s e)).
Proof.
  unfold window; simpl. apply FrameFacts.filter_ascending, FrameFacts.sort_rows_ascending.
Qed.

Lemma provides_fecha (col : Row datetime -> float) (bm : datetime) (r : Row datetime) :
  provides col bm r = true -> exists t, fecha r = Some t.
Proof.
  unfold provides, Dt.leb. destruct (fecha r) as [t |]; [eauto | discriminate].
Qed.

(** In a sorted window, the resolved base level sits on the latest of the
    rows that provide one. *)
Lemma base_level_latest (name : string) (col : Row datetime -> float)
  (df : DataFrame datetime) (bm : datetime) (b : float) :
  Frame.ascending (rows df) ->
  base_level name col df bm = Some b ->
  exists r,
    In r (rows df) /\ col r = b /\ provides col bm r = true /\
    forall r', In r' (rows df) -> provides col bm r' = true ->
               Dt.leb (fecha r') (fecha r) = true.
Proof.
  intros Hs Hb.
  destruct (base_level_Some _ _ _ _ Hb) as [l1 [r [l2 [Hl [Hc [Hp Hn]]]]]].
  exists r. rewrite Hl in *. split; [apply in_or_app; right; left; reflexivity |].
  split; [exact Hc |]. split; [exact Hp |].
  destruct (FrameFacts.ascending_app _ _ _ Hs) as [Hbefore _].
  destruct (provides_fecha _ _ _ Hp) as [t Ht].
  intros r' Hin Hp'.
  destruct (provides_fecha _ _ _ Hp') as [t' Ht'].
  apply in_app_or in Hin. destruct Hin as [Hin | [Hin | Hin]].
  - specialize (Hbefore r' Hin). unfold Frame.row_le in Hbefore.
    rewrite Ht, Ht' in *. exact Hbefore.
  - subst r'. rewrite Ht. simpl. apply TsFacts.leb_refl.
  - rewrite forallb_forall in Hn. specialize (Hn r' Hin).
    rewrite Hp' in Hn. discriminate.
Qed.

Lemma any_notna_all_nan (xs : list float) :
  (forall x, In x xs -> x = nan) -> Cell.any_notna xs = false.
Proof.
  intros H. unfold Cell.any_notna.
  destruct (existsb Cell.notna xs) eqn:E; [| reflexivity].
  apply existsb_exists in E. destruct E as [x [Hx Hn]].
  rewrite (H x Hx) in Hn. discriminate.
Qed.

Lemma series_of_without (out : list OutRow) (name : string) (col : OutRow -> float) :
  (name = "ars_real"%string /\ col = ars_real) \/
  (name = "usd_real"%string /\ col = usd_real) ->
  (forall o, In o out -> col o = nan) ->
  ~ In name (series_of out).
Proof.
  intros Hn Hall Hin.
  assert (Hnone : Cell.any_notna (map col out) = false).
  { apply any_notna_all_nan. intros x Hx. apply in_map_iff in Hx.
    destruct Hx as [o [Ho Hx]]. rewrite <- Ho. apply Hall. exact Hx. }
  unfold series_of in Hin.
  destruct Hn as [[Hname Hcol] | [Hname Hcol]]; subst name col; rewrite Hnone in Hin;
    simpl in Hin.
  - destruct (Cell.any_notna (map usd_real out)); simpl in Hin;
      [destruct Hin as [H | []]; discriminate | destruct Hin].
  - destruct (Cell.any_notna (map ars_real out)); simpl in Hin;
      [destruct Hin as [H | []]; discriminate | destruct Hin].
Qed.

Lemma derive_without_ar_base (df : DataFrame datetime) (bm : datetime) :
  cpi_ar_base df bm = None -> forall o, In o (derive df bm) -> ars_real o = nan.
Proof.
  intros Hb o Ho. unfold derive in Ho. apply in_map_iff in Ho.
  destruct Ho as [r [Ho _]]. subst o. rewrite Hb. reflexivity.
Qed.

Lemma derive_without_us_base (df : DataFrame datetime) (bm : datetime) :
  cpi_us_base df bm = None -> forall o, In o (derive df bm) -> usd_real o = nan.
Proof.
  intros Hb o Ho. unfold derive in Ho. apply in_map_iff in Ho.
  destruct Ho as [r [Ho _]]. subst o. rewrite Hb. simpl.
  destruct (has_fx df); reflexivity.
Qed.

(** The base level is resolved as soon as the column exists and a row of
    the window provides a level. *)
Lemma base_level_resolved (name : string) (col : Row datetime -> float)
  (df : DataFrame datetime) (bm : datetime) (r0 : Row datetime) :
  has_column name df = true ->
  In r0 (rows df) -> provides col bm r0 = true ->
  exists b, base_level name col df bm = Some b.
Proof.
  intros Hc Hr Hp.
  destruct (base_level name col df bm) as [b |] eqn:E; [eauto |].
  apply base_level_None in E. destruct E as [E | E]; [congruence |].
  rewrite (E r0 Hr) in Hp. discriminate.
Qed.

(** C4: in every analysis window (a range of the sorted table), for
    [cpi_ar] and for [cpi_us] alike: when the column exists and some row of
    the window has [fecha <= base_month] and a present cell, the base level
    is resolved, and it is the cell of the latest such row; the base level is
    unresolved exactly when the column is absent or the window has no such
    row, and then every deflated value of the series is missing and the
    series is left out of [series], the table [out] being produced all the
    same. *)
Theorem base_level_carry_backward (df : DataFrame datetime) (start_date end_date bm : datetime) :
  let df_r := window (Frame.sort_values df) start_date end_date in
  let latest (col : Row datetime -> float) (b : float) :=
    exists r, In r (rows df_r) /\ col r = b /\ provides col bm r = true /\
      forall r', In r' (rows df_r) -> provides col bm r' = true ->
                 Dt.leb (fecha r') (fecha r) = true in
  (has_column "cpi_ar" df_r = true ->
   (exists r0, In r0 (rows df_r) /\ provides (@cpi_ar datetime) bm r0 = true) ->
   exists b, cpi_ar_base df_r bm = Some b /\ latest (@cpi_ar datetime) b) /\
  (has_column "cpi_us" df_r = true ->
   (exists r0, In r0 (rows df_r) /\ provides (@cpi_us datetime) bm r0 = true) ->
   exists b, cpi_us_base df_r bm = Some b /\ latest (@cpi_us datetime) b) /\
  (forall b, cpi_ar_base df_r bm = Some b ->
     has_column "cpi_ar" df_r = true /\ latest (@cpi_ar datetime) b) /\
  (forall b, cpi_us_base df_r bm = Some b ->
     has_column "cpi_us" df_r = true /\ latest (@cpi_us datetime) b) /\
  (cpi_ar_base df_r bm = None <->
   has_column "cpi_ar" df_r = false \/
   forall r, In r (rows df_r) -> provides (@cpi_ar datetime) bm r = false) /\
  (cpi_us_base df_r bm = None <->
   has_column "cpi_us" df_r = false \/
   forall r, In r (rows df_r) -> provides (@cpi_us datetime) bm r = false) /\
  (cpi_ar_base df_r bm = None ->
     List.length (derive df_r bm) = List.length (rows df_r) /\
     (forall o, In o (derive df_r bm) -> ars_real o = nan) /\
     ~ In "ars_real"%string (series_of (derive df_r bm))) /\
  (cpi_us_base df_r bm = None ->
     List.length (derive df_r bm) = List.length (rows df_r) /\
     (forall o, In o (derive df_r bm) -> usd_real o = nan) /\
     ~ In "usd_real"%string (series_of (derive df_r bm))).
Proof.
  intros df_r latest.
  assert (Hs : Frame.ascending (rows df_r)) by apply window_ascending.
  assert (Hcol : forall name col b,
             base_level name col df_r bm = Some b -> has_column name df_r = true).
  { intros name col b Hb. destruct (has_column name df_r) eqn:C; [reflexivity |].
    assert (base_level name col df_r bm = None) by (apply base_level_None; left; exact C).
    congruence. }
  assert (Hres : forall name col,
             has_column name df_r = true ->
             (exists r0, In r0 (rows df_r) /\ provides col bm r0 = true) ->
             exists b, base_level name col df_r bm = Some b /\ latest col b).
  { intros name col Hc [r0 [Hr Hp]].
    destruct (base_level_resolved name col df_r bm r0 Hc Hr Hp) as [b Hb].
    exists b. split; [exact Hb |]. apply (base_level_latest _ _ _ _ Hs Hb). }
  split; [apply Hres |]. split; [apply Hres |].
  split.
  { intros b Hb. split; [apply (Hcol _ _ _ Hb) | apply (base_level_latest _ _ _ _ Hs Hb)]. }
  split.
  { intros b Hb. split; [apply (Hcol _ _ _ Hb) | apply (base_level_latest _ _ _ _ Hs Hb)]. }
  split; [apply base_level_None |]. split; [apply base_level_None |].
  split.
  - intros Hb. split; [unfold derive; apply length_map |].
    split; [apply derive_without_ar_base; exact Hb |].
    apply series_of_without with (col := ars_real); [left; auto |].
    apply derive_without_ar_base; exact Hb.
  - intros Hb. split; [unfold derive; apply length_map |].
    split; [apply derive_without_us_base; exact Hb |].
    apply series_of_without with (col := usd_real); [right; auto |].
    apply derive_without_us_base; exact Hb.
Qed.

(** ** Maxima and minima of date columns *)

Module DtFacts.

Lemma max_fold_Some (l : list datetime) (acc : datetime) (m : Timestamp) :
  fold_left Dt.max2 l acc = Some m ->
  (acc = Some m \/ In (Some m) l) /\
  (forall t, acc = Some t \/ In (Some t) l -> Ts.leb t m = true).
Proof.
  revert acc. induction l as [| d l IH]; simpl; intros acc H.
  - split; [left; exact H |]. intros t [E | []]. rewrite H in E. inversion E.
    apply TsFacts.leb_refl.
  - destruct (IH _ H) as [Hin Hub]. split.
    + destruct Hin as [Hin | Hin]; [| right; right; exact Hin].
      destruct acc as [a |], d as [x |]; simpl in Hin; auto.
      destruct (Ts.ltb a x); auto.
    + intros t [E | [E | E]].
      * subst acc. destruct d as [x |]; simpl in Hub.
        -- destruct (Ts.ltb t x) eqn:L.
           ++ eapply TsFacts.leb_trans; [apply TsFacts.ltb_leb; exact L |].
              apply Hub. left. reflexivity.
           ++ apply Hub. left. reflexivity.
        -- apply Hub. left. reflexivity.
      * subst d. destruct acc as [a |]; simpl in Hub.
        -- destruct (Ts.ltb a t) eqn:L.
           ++ apply Hub. left. reflexivity.
           ++ apply TsFacts.ltb_false_leb in L.
              eapply TsFacts.leb_trans; [exact L |]. apply Hub. left. reflexivity.
        -- apply Hub. left. reflexivity.
      * apply Hub. right. exact E.
Qed.

Lemma max_fold_None (l : list datetime) (acc : datetime) :
  fold_left Dt.max2 l acc = None -> acc = None /\ forall d, In d l -> d = None.
Proof.
  revert acc. induction l as [| d l IH]; simpl; intros acc H.
  - split; [exact H | intros d []].
  - destruct (IH _ H) as [Hacc Hall].
    destruct acc as [a |], d as [x |]; simpl in Hacc; try discriminate.
    + destruct (Ts.ltb a x); discriminate.
    + split; [reflexivity |]. intros d [E | E]; [subst d; reflexivity | apply Hall; exact E].
Qed.

(** [Dt.max] returns the latest month of the column. *)
Lemma max_Some (l : list datetime) (m : Timestamp) :
  Dt.max l = Some m ->
  In (Some m) l /\ forall t, In (Some t) l -> Ts.leb t m = true.
Proof.
  intros H. destruct (max_fold_Some _ _ H) as [[E | Hin] Hub]; [discriminate |].
  split; [exact Hin |]. intros t Ht. apply Hub. right. exact Ht.
Qed.

Lemma max_None (l : list datetime) : Dt.max l = None -> forall d, In d l -> d = None.
Proof. intros H. apply (max_fold_None _ _ H). Qed.

Lemma max_of_member (l : list datetime) (t : Timestamp) :
  In (Some t) l -> exists m, Dt.max l = Some m /\ Ts.leb t m = true.
Proof.
  intros Hin. destruct (Dt.max l) as [m |] eqn:E.
  - exists m. split; [reflexivity |]. apply (max_Some _ E). exact Hin.
  - specialize (max_None _ E _ Hin). discriminate.
Qed.

Lemma min_fold_Some (l : list datetime) (acc : datetime) (m : Timestamp) :
  fold_left Dt.min2 l acc = Some m ->
  (acc = Some m \/ In (Some m) l) /\
  (forall t, acc = Some t \/ In (Some t) l -> Ts.leb m t = true).
Proof.
  revert acc. induction l as [| d l IH]; simpl; intros acc H.
  - split; [left; exact H |]. intros t [E | []]. rewrite H in E. inversion E.
    apply TsFacts.leb_refl.
  - destruct (IH _ H) as [Hin Hlb]. split.
    + destruct Hin as [Hin | Hin]; [| right; right; exact Hin].
      destruct acc as [a |], d as [x |]; simpl in Hin; auto.
      destruct (Ts.ltb x a); auto.
    + intros t [E | [E | E]].
      * subst acc. destruct d as [x |]; simpl in Hlb.
        -- destruct (Ts.ltb x t) eqn:L.
           ++ eapply TsFacts.leb_trans; [| apply TsFacts.ltb_leb; exact L].
              apply Hlb. left. reflexivity.
           ++ apply Hlb. left. reflexivity.
        -- apply Hlb. left. reflexivity.
      * subst d. destruct acc as [a |]; simpl in Hlb.
        -- destruct (Ts.ltb t a) eqn:L.
           ++ apply Hlb. left. reflexivity.
           ++ apply TsFacts.ltb_false_leb in L.
              eapply TsFacts.leb_trans; [| exact L]. apply Hlb. left. reflexivity.
        -- apply Hlb. left. reflexivity.
      * apply Hlb. right. exact E.
Qed.

Lemma min_fold_None (l : list datetime) (acc : datetime) :
  fold_left Dt.min2 l acc = None -> acc = None /\ forall d, In d l -> d = None.
Proof.
  revert acc. induction l as [| d l IH]; simpl; intros acc H.
  - split; [exact H | intros d []].
  - destruct (IH _ H) as [Hacc Hall].
    destruct acc as [a |], d as [x |]; simpl in Hacc; try discriminate.
    + destruct (Ts.ltb x a); discriminate.
    + split; [reflexivity |]. intros d [E | E]; [subst d; reflexivity | apply Hall; exact E].
Qed.

(** [Dt.min] returns the earliest month of the column. *)
Lemma min_Some (l : list datetime) (m : Timestamp) :
  Dt.min l = Some m ->
  In (Some m) l /\ forall t, In (Some t) l -> Ts.leb m t = true.
Proof.
  intros H. destruct (min_fold_Some _ _ H) as [[E | Hin] Hlb]; [discriminate |].
  split; [exact Hin |]. intros t Ht. apply Hlb. right. exact Ht.
Qed.

Lemma min_None (l : list datetime) : Dt.min l = None -> forall d, In d l -> d = None.
Proof. intros H. apply (min_fold_None _ _ H). Qed.

(** On months only, Python's [min] is the minimum. *)
Lemma py_min_months (xs : list datetime) (a : Timestamp) :
  (forall d, In d xs -> d <> None) ->
  exists m,
    Dt.py_min (Some a) xs = Some m /\
    In (Some m) (Some a :: xs) /\
    forall t, In (Some t) (Some a :: xs) -> Ts.leb m t = true.
Proof.
  unfold Dt.py_min. revert a. induction xs as [| d xs IH]; simpl; intros a Hall.
  - exists a. split; [reflexivity |]. split; [auto |].
    intros t [E | []]. inversion E. apply TsFacts.leb_refl.
  - destruct d as [x |]; [| exfalso; apply (Hall None); auto].
    assert (Hall' : forall d, In d xs -> d <> None) by (intros d Hd; apply Hall; auto).
    simpl. destruct (Ts.ltb x a) eqn:L.
    + destruct (IH x Hall') as [m [Hm [Hin Hlb]]]. exists m.
      split; [exact Hm |]. split.
      * destruct Hin as [E | Hin]; [right; left; exact E | right; right; exact Hin].
      * intros t [E | [E | E]].
        -- inversion E; subst t.
           eapply TsFacts.leb_trans; [apply Hlb; left; reflexivity |].
           apply TsFacts.ltb_leb. exact L.
        -- apply Hlb. left. exact E.
        -- apply Hlb. right. exact E.
    + destruct (IH a Hall') as [m [Hm [Hin Hlb]]]. exists m.
      split; [exact Hm |]. split.
      * destruct Hin as [E | Hin]; [left; exact E | right; right; exact Hin].
      * intros t [E | [E | E]].
        -- apply Hlb. left. exact E.
        -- inversion E; subst t. apply TsFacts.ltb_false_leb in L.
           eapply TsFacts.leb_trans; [apply Hlb; left; reflexivity | exact L].
        -- apply Hlb. right. exact E.
Qed.

End DtFacts.

(** ** The last common month *)

Lemma dropna_In (subset : list (Row datetime -> float)) (l : list (Row datetime))
  (r : Row datetime) :
  In r (dropna subset l) <->
  In r l /\ forall col, In col subset -> Cell.notna (col r) = true.
Proof.
  unfold dropna. rewrite filter_In, forallb_forall. reflexivity.
Qed.

(** A watermark is the latest month on which every required cell is
    present. *)
Lemma watermark_Some (df : DataFrame datetime) (subset : list (Row datetime -> float))
  (m : Timestamp) :
  watermark df subset = Some m ->
  (exists r, In r (rows df) /\ fecha r = Some m /\
             forall col, In col subset -> Cell.notna (col r) = true) /\
  (forall r t, In r (rows df) -> fecha r = Some t ->
               (forall col, In col subset -> Cell.notna (col r) = true) ->
               Ts.leb t m = true).
Proof.
  unfold watermark. intros H. destruct (DtFacts.max_Some _ H) as [Hin Hub]. split.
  - apply in_map_iff in Hin. destruct Hin as [r [Hf Hr]].
    apply dropna_In in Hr. exists r. tauto.
  - intros r t Hr Hf Hall. apply Hub. rewrite <- Hf. apply in_map.
    apply dropna_In. auto.
Qed.

Lemma watermarks_ars (df : DataFrame datetime) (w : datetime) :
  In ("ars_real"%string, w) (watermarks df) <->
  available df ars_real_needs = true /\ w = watermark df ars_real_subset.
Proof.
  unfold watermarks.
  destruct (available df ars_real_needs), (available df usd_real_needs); simpl;
    split; intros H; intuition (try discriminate; try congruence).
Qed.

Lemma watermarks_usd (df : DataFrame datetime) (w : datetime) :
  In ("usd_real"%string, w) (watermarks df) <->
  available df usd_real_needs = true /\ w = watermark df usd_real_subset.
Proof.
  unfold watermarks.
  destruct (available df ars_real_needs), (available df usd_real_needs); simpl;
    split; intros H; intuition (try discriminate; try congruence).
Qed.

(** Where every computed watermark is a month the resolver does what the
    specification says: a watermark is the latest month on which all the
    required cells are present, the last common month is the minimum of the
    computed watermarks, or the last month of the table when none is
    computed, and the start is the first month of the table. *)
Theorem last_common_month_resolved (df : DataFrame datetime) :
  compute_last_common_month df =
    (Dt.min (map (@fecha datetime) (rows df)), last_common_of df, watermarks df) /\
  (forall w, In ("ars_real"%string, w) (watermarks df) <->
             available df ars_real_needs = true /\ w = watermark df ars_real_subset) /\
  (forall w, In ("usd_real"%string, w) (watermarks df) <->
             available df usd_real_needs = true /\ w = watermark df usd_real_subset) /\
  (forall subset m, watermark df subset = Some m ->
     (exists r, In r (rows df) /\ fecha r = Some m /\
                forall col, In col subset -> Cell.notna (col r) = true) /\
     (forall r t, In r (rows df) -> fecha r = Some t ->
                  (forall col, In col subset -> Cell.notna (col r) = true) ->
                  Ts.leb t m = true)) /\
  (watermarks df = [] ->
     last_common_of df = Dt.max (map (@fecha datetime) (rows df))) /\
  (watermarks df <> [] ->
   (forall w, In w (map snd (watermarks df)) -> w <> None) ->
     exists m, last_common_of df = Some m /\
               In (Some m) (map snd (watermarks df)) /\
               forall t, In (Some t) (map snd (watermarks df)) -> Ts.leb m t = true) /\
  (forall m, Dt.max (map (@fecha datetime) (rows df)) = Some m ->
     In (Some m) (map (@fecha datetime) (rows df)) /\
     forall t, In (Some t) (map (@fecha datetime) (rows df)) -> Ts.leb t m = true) /\
  (forall m, Dt.min (map (@fecha datetime) (rows df)) = Some m ->
     In (Some m) (map (@fecha datetime) (rows df)) /\
     forall t, In (Some t) (map (@fecha datetime) (rows df)) -> Ts.leb m t = true).
Proof.
  split; [reflexivity |].
  split; [apply watermarks_ars |].
  split; [apply watermarks_usd |].
  split; [intros subset m; apply watermark_Some |].
  split; [| split; [| split]].
  - intros E. unfold last_common_of, compute_last_common_month. simpl. rewrite E. reflexivity.
  - intros Hne Hall. unfold last_common_of, compute_last_common_month. simpl.
    destruct (map snd (watermarks df)) as [| x xs] eqn:E.
    + destruct (watermarks df); [congruence | discriminate].
    + destruct x as [a |]; [| exfalso; apply (Hall None); [left |]; reflexivity].
      apply DtFacts.py_min_months. intros d Hd. apply Hall. right. exact Hd.
  - intros m. apply DtFacts.max_Some.
  - intros m. apply DtFacts.min_Some.
Qed.

(** C3: the claim is right and line 57 misses a case.  When the guard of a
    series passes although its required fields never meet on a row, the
    watermark of that series is [NaT] and Python's [min] does not skip it.
    On [Samples.resolver_a] the foreign series has watermark 2023-02, so the
    last common month should be 2023-02, and the code reports [NaT]; on
    [Samples.resolver_b] no series is derivable, so it should be the last
    month of the table, 2023-02, and the code reports [NaT]; in both cases
    the script then raises at line 164.  The result depends on the order of
    the dictionary: on [Samples.resolver_d], where the [NaT] watermark comes
    second, the month is reported. *)
Theorem last_common_nat_watermark :
  (watermarks Samples.resolver_a =
     [("ars_real"%string, None); ("usd_real"%string, Some (Samples.ym 2023 2))] /\
   last_common_of Samples.resolver_a = None /\
   Spec.last_common_month Samples.resolver_a = Some (Samples.ym 2023 2) /\
   dashboard Samples.resolver_a (Some (Samples.ym 2023 1)) (Some (Samples.ym 2023 2)) None
   = Raises NaTFormatError) /\
  (watermarks Samples.resolver_b = [("ars_real"%string, None)] /\
   last_common_of Samples.resolver_b = None /\
   Spec.derivable Samples.resolver_b ars_real_subset = false /\
   Spec.derivable Samples.resolver_b usd_real_subset = false /\
   Dt.max (map (@fecha datetime) (rows Samples.resolver_b)) = Some (Samples.ym 2023 2) /\
   Spec.last_common_month Samples.resolver_b = Some (Samples.ym 2023 2) /\
   dashboard Samples.resolver_b (Some (Samples.ym 2023 1)) (Some (Samples.ym 2023 2)) None
   = Raises NaTFormatError) /\
  (watermarks Samples.resolver_d =
     [("ars_real"%string, Some (Samples.ym 2023 2)); ("usd_real"%string, None)] /\
   last_common_of Samples.resolver_d = Some (Samples.ym 2023 2) /\
   Spec.last_common_month Samples.resolver_d = Some (Samples.ym 2023 2)) /\
  ~ (forall df : DataFrame datetime, last_common_of df = Spec.last_common_month df).
Proof.
  split; [repeat split; vm_compute; reflexivity |].
  split; [repeat split; vm_compute; reflexivity |].
  split; [repeat split; vm_compute; reflexivity |].
  intros H. specialize (H Samples.resolver_a). vm_compute in H. discriminate.
Qed.

(** ** Sparser tables *)

Section Sparser.

Import Spec.

Lemma respects_sueldo : respects (@sueldo_nominal_ars datetime).
Proof. intros r r' H. apply H. Qed.

Lemma respects_usd_ars : respects (@usd_ars datetime).
Proof. intros r r' H. apply H. Qed.

Lemma respects_cpi_ar : respects (@cpi_ar datetime).
Proof. intros r r' H. apply H. Qed.

Lemma respects_cpi_us : respects (@cpi_us datetime).
Proof. intros r r' H. apply H. Qed.

Lemma sparser_present (col : Row datetime -> float) (r r' : Row datetime) :
  respects col -> sparser_row r r' ->
  Cell.notna (col r') = true -> Cell.notna (col r) = true.
Proof.
  intros Hc Hr Hp. destruct (Hc r r' Hr) as [E | E]; rewrite E in Hp;
    [exact Hp | discriminate].
Qed.

Lemma sparser_any_notna (col : Row datetime -> float) (l l' : list (Row datetime)) :
  respects col -> Forall2 sparser_row l l' ->
  Cell.any_notna (map col l') = true -> Cell.any_notna (map col l) = true.
Proof.
  intros Hc. unfold Cell.any_notna. induction 1 as [| r r' l l' Hr Hl IH]; simpl; auto.
  intros H. apply orb_true_iff in H. apply orb_true_iff.
  destruct H as [H | H]; [left; eapply sparser_present; eauto | right; auto].
Qed.

Lemma sparser_dropna (subset : list (Row datetime -> float)) (l l' : list (Row datetime))
  (r' : Row datetime) :
  (forall col, In col subset -> respects col) ->
  Forall2 sparser_row l l' ->
  In r' (dropna subset l') ->
  exists r, In r (dropna subset l) /\ fecha r = fecha r'.
Proof.
  intros Hsub. induction 1 as [| a a' l l' Ha Hl IH];
    intros Hin; apply dropna_In in Hin; destruct Hin as [Hin Hall];
    [destruct Hin |].
  destruct Hin as [E | Hin].
  - subst a'. exists a. split.
    + apply dropna_In. split; [left; reflexivity |].
      intros col Hcol. eapply sparser_present; eauto.
    + symmetry. apply Ha.
  - destruct IH as [r [Hr Hf]]; [apply dropna_In; auto |].
    exists r. split; [| exact Hf].
    apply dropna_In in Hr. apply dropna_In. simpl. tauto.
Qed.

Lemma sparser_watermark (subset : list (Row datetime -> float))
  (df df' : DataFrame datetime) (m' : Timestamp) :
  (forall col, In col subset -> respects col) ->
  sparser df df' ->
  watermark df' subset = Some m' ->
  exists m, watermark df subset = Some m /\ Ts.leb m' m = true.
Proof.
  intros Hsub [_ Hrows] Hw. unfold watermark in *.
  destruct (DtFacts.max_Some _ Hw) as [Hin _].
  apply in_map_iff in Hin. destruct Hin as [r' [Hf Hr']].
  destruct (@sparser_dropna subset _ _ r' Hsub Hrows Hr') as [r [Hr Hfr]].
  apply DtFacts.max_of_member. rewrite <- Hf, <- Hfr. apply in_map. exact Hr.
Qed.

Lemma sparser_available (needs : list (string * (Row datetime -> float)))
  (df df' : DataFrame datetime) :
  (forall n, In n needs -> respects (snd n)) ->
  sparser df df' ->
  available df' needs = true -> available df needs = true.
Proof.
  intros Hn [Hcols Hrows]. unfold available. rewrite !forallb_forall.
  intros H n Hin. specialize (H n Hin). apply andb_true_iff in H.
  destruct H as [Hc Ha]. apply andb_true_iff. split.
  - unfold has_column in *. rewrite <- Hcols. exact Hc.
  - eapply sparser_any_notna; eauto.
Qed.

End Sparser.

Lemma resolver_c_made_sparser :
  Spec.sparser Samples.resolver_c Samples.resolver_c_sparser.
Proof.
  split; [reflexivity |].
  constructor; [| constructor; [| constructor]].
  - split; [reflexivity |]. simpl.
    split; [left; reflexivity |]. split; [left; reflexivity |].
    split; [right; reflexivity | left; reflexivity].
  - split; [reflexivity |]. simpl.
    split; [left; reflexivity |]. split; [left; reflexivity |].
    split; left; reflexivity.
Defined.

(** C8, as the spec states it, fails for the watermark the resolver
    reports: removing the only local index cell of [Samples.resolver_c]
    removes the local series from the minimum, and the last common month
    moves from 2023-01 up to 2023-02. *)
Lemma watermark_counterexample :
  Spec.sparser Samples.resolver_c Samples.resolver_c_sparser /\
  last_common_of Samples.resolver_c = Some (Samples.ym 2023 1) /\
  last_common_of Samples.resolver_c_sparser = Some (Samples.ym 2023 2) /\
  Ts.leb (Samples.ym 2023 2) (Samples.ym 2023 1) = false /\
  ~ (forall (df df' : DataFrame datetime) (m m' : Timestamp),
        Spec.sparser df df' ->
        last_common_of df = Some m -> last_common_of df' = Some m' ->
        Ts.leb m' m = true).
Proof.
  pose proof resolver_c_made_sparser as Hs.
  split; [exact Hs |].
  split; [vm_compute; reflexivity |].
  split; [vm_compute; reflexivity |].
  split; [vm_compute; reflexivity |].
  intros H.
  specialize (H _ _ (Samples.ym 2023 1) (Samples.ym 2023 2) Hs eq_refl eq_refl).
  vm_compute in H. discriminate.
Qed.

(** C8, amended: the watermark of each series is monotone.  When a table
    is made sparser, every series whose watermark is still computed as a
    month had a watermark on the original table, computed at that month or
    a later one.  (The minimum over the series is not: see above.) *)
Theorem watermark_monotone (df df' : DataFrame datetime) (name : string) (m' : Timestamp) :
  Spec.sparser df df' ->
  In (name, Some m') (watermarks df') ->
  exists m, In (name, Some m) (watermarks df) /\ Ts.leb m' m = true.
Proof.
  intros Hs Hin.
  assert (Hars : forall col, In col ars_real_subset -> Spec.respects col).
  { intros col [E | [E | []]]; subst col;
      [apply respects_sueldo | apply respects_cpi_ar]. }
  assert (Husd : forall col, In col usd_real_subset -> Spec.respects col).
  { intros col [E | [E | [E | []]]]; subst col;
      [apply respects_sueldo | apply respects_usd_ars | apply respects_cpi_us]. }
  assert (Hna : forall n, In n ars_real_needs -> Spec.respects (snd n)).
  { intros n [E | []]; subst n; apply respects_cpi_ar. }
  assert (Hnu : forall n, In n usd_real_needs -> Spec.respects (snd n)).
  { intros n [E | [E | []]]; subst n; [apply respects_usd_ars | apply respects_cpi_us]. }
  unfold watermarks in Hin. apply in_app_or in Hin. destruct Hin as [Hin | Hin].
  - destruct (available df' ars_real_needs) eqn:Ha; [| destruct Hin].
    destruct Hin as [E | []]. inversion E; subst name.
    destruct (@sparser_watermark _ _ _ _ Hars Hs H1) as [m [Hm Hle]].
    exists m. split; [| exact Hle].
    apply watermarks_ars. split; [| symmetry; exact Hm].
    eapply sparser_available; eauto.
  - destruct (available df' usd_real_needs) eqn:Ha; [| destruct Hin].
    destruct Hin as [E | []]. inversion E; subst name.
    destruct (@sparser_watermark _ _ _ _ Husd Hs H1) as [m [Hm Hle]].
    exists m. split; [| exact Hle].
    apply watermarks_usd. split; [| symmetry; exact Hm].
    eapply sparser_available; eauto.
Qed.

Lemma watermark_monotone_witness :
  exists m, In ("usd_real"%string, Some m) (watermarks Samples.resolver_c) /\
            Ts.leb (Samples.ym 2023 2) m = true.
Proof.
  apply (@watermark_monotone Samples.resolver_c Samples.resolver_c_sparser
           "usd_real"%string (Samples.ym 2023 2)).
  - exact resolver_c_made_sparser.
  - left. reflexivity.
Defined.

(** ** Date normalisation *)

(** C7: normalisation works cell by cell and truncates to the first
    instant of the month: a date keeps its year and month and gets day 1 at
    midnight, text is parsed and truncated likewise, text that does not parse
    and [NaT] become [NaT]; and it is idempotent: normalising the normalised
    column returns it unchanged. *)
Theorem to_month_start_idempotent (parse : string -> option Timestamp) (s : list datelike) :
  to_month_start parse (map as_datelike (to_month_start parse s)) = to_month_start parse s /\
  List.length (to_month_start parse s) = List.length s /\
  (forall i x, nth_error s i = Some x ->
     nth_error (to_month_start parse s) i = Some (month_start_cell parse x) /\
     nth_error (to_month_start parse (map as_datelike (to_month_start parse s))) i =
       Some (month_start_cell parse x)) /\
  (forall t, month_start_cell parse (Stamp t) =
             Some {| year := year t; month := month t; day := 1; nanos := 0 |}) /\
  month_start_cell parse NaT = None /\
  (forall txt, month_start_cell parse (Text txt) =
     match parse txt with
     | Some t => Some {| year := year t; month := month t; day := 1; nanos := 0 |}
     | None => None
     end) /\
  (forall x, month_start_cell parse (as_datelike (month_start_cell parse x)) =
             month_start_cell parse x).
Proof.
  assert (Hcell : forall x, month_start_cell parse (as_datelike (month_start_cell parse x)) =
                            month_start_cell parse x).
  { intros x. unfold month_start_cell at 2 3.
    destruct (to_datetime parse x) as [t |]; reflexivity. }
  assert (Hidem : to_month_start parse (map as_datelike (to_month_start parse s)) =
                  to_month_start parse s).
  { unfold to_month_start. rewrite !map_map. apply map_ext. exact Hcell. }
  assert (Hnth : forall i x, nth_error s i = Some x ->
                   nth_error (to_month_start parse s) i = Some (month_start_cell parse x)).
  { intros i x H. unfold to_month_start. rewrite nth_error_map, H. reflexivity. }
  split; [exact Hidem |].
  split; [unfold to_month_start; apply length_map |].
  split; [intros i x H; split; [| rewrite Hidem]; apply Hnth; exact H |].
  split; [reflexivity |]. split; [reflexivity |].
  split; [| exact Hcell].
  intros txt. unfold month_start_cell. simpl. destruct (parse txt); reflexivity.
Qed.

Lemma to_month_start_idempotent_witness :
  to_month_start Samples.no_text
    [Stamp {| year := 2023; month := 1; day := 20; nanos := 34200000000000 |};
     NaT; Text "sin fecha"]
  = [Some (Samples.ym 2023 1); None; None] /\
  to_month_start Samples.no_text
    (map as_datelike
       (to_month_start Samples.no_text
          [Stamp {| year := 2023; month := 1; day := 20; nanos := 34200000000000 |};
           NaT; Text "sin fecha"]))
  = [Some (Samples.ym 2023 1); None; None].
Proof.
  destruct (to_month_start_idempotent Samples.no_text
              [Stamp {| year := 2023; month := 1; day := 20; nanos := 34200000000000 |};
               NaT; Text "sin fecha"]) as [Hidem _].
  split; [reflexivity |]. rewrite Hidem. reflexivity.
Defined.

(** ** Merging *)

Lemma has_column_In (D : Type) (c : string) (df : DataFrame D) :
  has_column c df = true <-> In c (columns df).
Proof.
  unfold has_column. rewrite existsb_exists. split.
  - intros [x [Hx E]]. apply String.eqb_eq in E. subst x. exact Hx.
  - intros H. exists c. split; [exact H | apply String.eqb_refl].
Qed.




Lemma keep_has_cpi_us (D : Type) (df : DataFrame D) (l : list (Row datetime)) :
  has_column "cpi_us" {| columns := keep_columns df; rows := l |} = has_column "cpi_us" df.
Proof.
  unfold keep_columns, has_column at 1. simpl.
  destruct (has_column "usd_ars" df), (has_column "cpi_ar" df),
    (has_column "cpi_us" df); reflexivity.
Qed.

Lemma keep_In_cpi_us (D : Type) (df : DataFrame D) :
  has_column "cpi_us" df = true ->
  existsb (String.eqb "cpi_us") (keep_columns df) = true.
Proof.
  intros H. pose proof (keep_has_cpi_us df []) as K. rewrite H in K. exact K.
Qed.

(** The table before the join: normalised, restricted to [keep], sorted. *)
Lemma merge_all_shape (parse : string -> option Timestamp) (df : DataFrame datelike)
  (ref : ReferenceIndex) :
  has_column "fecha" df = true -> has_column "sueldo_nominal_ars" df = true ->
  let sorted :=
    Frame.sort_rows (map (Frame.select (keep_columns df))
                         (map (normalize_row parse) (rows df))) in
  merge_all parse df ref =
    if has_column "cpi_us" df
    then inr {| columns := keep_columns df; rows := sorted |}
    else inr {| columns := keep_columns df ++ ["cpi_us"%string];
                rows := Frame.left_merge sorted ref |}.
Proof.
  intros Hf Hs sorted. unfold merge_all. rewrite Hf, Hs. simpl.
  rewrite keep_has_cpi_us. destruct (has_column "cpi_us" df); reflexivity.
Qed.

Lemma matches_In (ref : ReferenceIndex) (d : datetime) (e : Timestamp * float) :
  In e (Frame.matches ref d) <-> In e ref /\ d = Some (fst e).
Proof.
  unfold Frame.matches. destruct d as [t |].
  - rewrite filter_In, TsFacts.eqb_eq. split; intros [A B]; split; congruence.
  - split; [intros [] | intros [_ E]; discriminate].
Qed.

(** What the left join gives a row: the level of a reference entry of its
    month, or a missing cell when the reference has no entry for it. *)
Lemma join_row_In (ref : ReferenceIndex) (r x : Row datetime) :
  In x (Frame.join_row ref r) <->
  (exists t v, fecha r = Some t /\ In (t, v) ref /\ x = Frame.set_cpi_us r v) \/
  ((forall t v, fecha r = Some t -> ~ In (t, v) ref) /\ x = Frame.set_cpi_us r nan).
Proof.
  unfold Frame.join_row.
  destruct (Frame.matches ref (fecha r)) as [| e ms] eqn:E.
  - split.
    + intros [H | []]. right. split; [| auto].
      intros t v Ht Hin.
      assert (In (t, v) (Frame.matches ref (fecha r))) by (apply matches_In; auto).
      rewrite E in H0. destruct H0.
    + intros [[t [v [Ht [Hin _]]]] | [_ Hx]]; [| left; auto].
      assert (In (t, v) (Frame.matches ref (fecha r))) by (apply matches_In; auto).
      rewrite E in H. destruct H.
  - rewrite <- E. split.
    + intros H. apply in_map_iff in H. destruct H as [[t v] [Hx Hin]].
      apply matches_In in Hin. destruct Hin as [Hin Hf]. left. exists t, v. auto.
    + intros [[t [v [Ht [Hin Hx]]]] | [Hno _]].
      * apply in_map_iff. exists (t, v). split; [auto |]. apply matches_In. auto.
      * exfalso. assert (Hin : In e (Frame.matches ref (fecha r))) by (rewrite E; left; auto).
        apply matches_In in Hin. destruct e as [t v]. destruct Hin as [Hin Hf].
        apply (Hno t v Hf Hin).
Qed.

Lemma sorted_rows_In (parse : string -> option Timestamp) (input : DataFrame datelike)
  (y : Row datetime) :
  In y (Frame.sort_rows (map (Frame.select (keep_columns input))
                             (map (normalize_row parse) (rows input)))) <->
  exists r, In r (rows input) /\
            y = Frame.select (keep_columns input) (normalize_row parse r).
Proof.
  split.
  - intros H. apply (Permutation_in _ (FrameFacts.sort_rows_perm _)) in H.
    rewrite map_map in H. apply in_map_iff in H. destruct H as [r [E Hr]]. eauto.
  - intros [r [Hr E]].
    apply (Permutation_in _ (Permutation_sym (FrameFacts.sort_rows_perm _))).
    rewrite map_map. apply in_map_iff. eauto.
Qed.

Lemma keep_has_optional (D : Type) (df : DataFrame D) :
  existsb (String.eqb "usd_ars") (keep_columns df) = has_column "usd_ars" df /\
  existsb (String.eqb "cpi_ar") (keep_columns df) = has_column "cpi_ar" df /\
  existsb (String.eqb "sueldo_nominal_ars") (keep_columns df) = true.
Proof.
  unfold keep_columns. simpl.
  destruct (has_column "usd_ars" df), (has_column "cpi_ar" df),
    (has_column "cpi_us" df); repeat split; reflexivity.
Qed.

(** A row after normalisation, restriction to [keep] and a write of
    [cpi_us]. *)
Lemma joined_row (parse : string -> option Timestamp) (input : DataFrame datelike)
  (r : Row datelike) (v : float) :
  Frame.set_cpi_us (Frame.select (keep_columns input) (normalize_row parse r)) v =
  {| fecha := month_start_cell parse (fecha r);
     sueldo_nominal_ars := sueldo_nominal_ars r;
     usd_ars := if has_column "usd_ars" input then usd_ars r else nan;
     cpi_ar := if has_column "cpi_ar" input then cpi_ar r else nan;
     cpi_us := v |}.
Proof.
  destruct (keep_has_optional input) as [Hu [Ha Hs]].
  unfold Frame.set_cpi_us, Frame.select, normalize_row.
  cbn [fecha sueldo_nominal_ars usd_ars cpi_ar cpi_us].
  rewrite Hu, Ha, Hs. reflexivity.
Qed.

(** C5: when the input has a [cpi_us] column, [merge_all] returns a table
    whose rows are the input rows, each with its normalised month and its
    own [cpi_us] cell, and the result is the same for every reference index;
    when the column is absent, the rows of the merged table are exactly the
    input rows left-joined with the reference index on the month: a row
    carries the level of a reference entry of its month, and a row without a
    month or without a reference entry carries a missing [cpi_us]. *)
Theorem merge_all_cpi_us (parse : string -> option Timestamp)
  (sueldos_df : DataFrame datelike) (cpi_us_df : ReferenceIndex) :
  has_column "fecha" sueldos_df = true ->
  has_column "sueldo_nominal_ars" sueldos_df = true ->
  let joined (r : Row datelike) (v : float) : Row datetime :=
    {| fecha := month_start_cell parse (fecha r);
       sueldo_nominal_ars := sueldo_nominal_ars r;
       usd_ars := if has_column "usd_ars" sueldos_df then usd_ars r else nan;
       cpi_ar := if has_column "cpi_ar" sueldos_df then cpi_ar r else nan;
       cpi_us := v |} in
  (has_column "cpi_us" sueldos_df = true ->
   exists df,
     merge_all parse sueldos_df cpi_us_df = inr df /\
     has_column "cpi_us" df = true /\
     Permutation (rows df) (map (fun r => joined r (cpi_us r)) (rows sueldos_df)) /\
     Permutation
       (map (fun r => (fecha r, cpi_us r)) (rows df))
       (map (fun r => (month_start_cell parse (fecha r), cpi_us r)) (rows sueldos_df)) /\
     forall other, merge_all parse sueldos_df other = inr df) /\
  (has_column "cpi_us" sueldos_df = false ->
   forall df, merge_all parse sueldos_df cpi_us_df = inr df ->
     has_column "cpi_us" df = true /\
     forall x, In x (rows df) <->
       exists r, In r (rows sueldos_df) /\
         ((exists t v, month_start_cell parse (fecha r) = Some t /\
                       In (t, v) cpi_us_df /\ x = joined r v /\ cpi_us x = v) \/
          ((forall t v, month_start_cell parse (fecha r) = Some t ->
                        ~ In (t, v) cpi_us_df) /\
           x = joined r nan /\ cpi_us x = nan))).
Proof.
  intros Hf Hs joined.
  pose proof (merge_all_shape parse sueldos_df) as Shape.
  specialize (fun ref => Shape ref Hf Hs). cbv zeta in Shape.
  set (sorted := Frame.sort_rows (map (Frame.select (keep_columns sueldos_df))
                                      (map (normalize_row parse) (rows sueldos_df))))
    in *.
  split.
  - intros Hc. rewrite Hc in Shape.
    exists {| columns := keep_columns sueldos_df; rows := sorted |}.
    split; [apply Shape |].
    split; [rewrite keep_has_cpi_us; exact Hc |].
    assert (Hrows : Permutation sorted
                      (map (fun r => joined r (cpi_us r)) (rows sueldos_df))).
    { unfold sorted. eapply perm_trans; [apply FrameFacts.sort_rows_perm |].
      rewrite map_map.
      match goal with
      | |- Permutation ?a ?b => assert (E : a = b); [| rewrite E; apply Permutation_refl]
      end.
      apply map_ext. intros r. unfold joined.
      rewrite <- (joined_row parse sueldos_df r (cpi_us r)).
      unfold Frame.set_cpi_us, Frame.select, normalize_row.
      cbn [fecha sueldo_nominal_ars usd_ars cpi_ar cpi_us].
      rewrite (keep_In_cpi_us _ Hc). reflexivity. }
    split; [exact Hrows |].
    split; [| intros other; apply Shape].
    cbn [rows].
    eapply perm_trans; [apply Permutation_map; exact Hrows |].
    rewrite map_map. apply Permutation_refl.
  - intros Hc df M. specialize (Shape cpi_us_df). rewrite Hc, M in Shape.
    match type of Shape with
    | inr _ = inr ?d => assert (E : df = d) by congruence
    end.
    rewrite E. cbn [rows]. split.
    { unfold has_column; cbn [columns]. rewrite existsb_app. simpl. apply orb_true_r. }
    intros x. unfold Frame.left_merge. rewrite in_flat_map. split.
    + intros [y [Hy Hx]]. apply sorted_rows_In in Hy. destruct Hy as [r [Hr Ey]].
      exists r. split; [exact Hr |]. subst y.
      apply join_row_In in Hx.
      destruct Hx as [[t [v [Ht [Hin Ex]]]] | [Hno Ex]];
        rewrite joined_row in Ex; fold (joined r) in Ex.
      * left. exists t, v. split; [exact Ht |]. split; [exact Hin |].
        split; [exact Ex | subst x; reflexivity].
      * right. split; [exact Hno |]. split; [exact Ex | subst x; reflexivity].
    + intros [r [Hr Hx]].
      exists (Frame.select (keep_columns sueldos_df) (normalize_row parse r)).
      split; [apply sorted_rows_In; eauto |].
      apply join_row_In.
      destruct Hx as [[t [v [Ht [Hin [Ex _]]]]] | [Hno [Ex _]]].
      * left. exists t, v. split; [exact Ht | split; [exact Hin |]].
        rewrite joined_row. exact Ex.
      * right. split; [exact Hno |]. rewrite joined_row. exact Ex.
Qed.

Lemma merge_all_cpi_us_witness :
  (exists df,
     merge_all Samples.no_text Samples.with_foreign Samples.fred = inr df /\
     Permutation (map (fun r => (fecha r, cpi_us r)) (rows df))
                 [(Some (Samples.ym 2023 2), 105%float);
                  (Some (Samples.ym 2023 1), 100%float)]) /\
  (exists df,
     merge_all Samples.no_text Samples.without_foreign Samples.fred = inr df /\
     In (Samples.row (Some (Samples.ym 2023 1)) 1000 200 nan 299.5) (rows df) /\
     In (Samples.row (Some (Samples.ym 2023 3)) 1200 240 nan nan) (rows df)).
Proof.
  split.
  - destruct (proj1 (@merge_all_cpi_us Samples.no_text Samples.with_foreign Samples.fred
                       eq_refl eq_refl) eq_refl) as [df [Hm [_ [_ [Hp _]]]]].
    exists df. split; [exact Hm | exact Hp].
  - eexists. split; [reflexivity |].
    destruct (proj2 (@merge_all_cpi_us Samples.no_text Samples.without_foreign
                       Samples.fred eq_refl eq_refl) eq_refl _ eq_refl) as [_ Hin].
    split; apply Hin.
    + exists (Samples.raw (Stamp (Samples.ym 2023 1)) 1000 200 nan nan).
      split; [left; reflexivity |].
      left. exists (Samples.ym 2023 1), 299.5%float.
      split; [reflexivity |]. split; [left; reflexivity |]. split; reflexivity.
    + exists (Samples.raw (Stamp (Samples.ym 2023 3)) 1200 240 nan nan).
      split; [right; left; reflexivity |].
      right. split; [| split; reflexivity].
      intros t v Et [E | [E | []]]; inversion E; subst; discriminate.
Defined.

(** ** Order and uniqueness of months *)

Lemma matches_unique (ref : ReferenceIndex) (t : Timestamp) :
  NoDup (map fst ref) ->
  (List.length (filter (fun e => Ts.eqb (fst e) t) ref) <= 1)%nat.
Proof.
  induction ref as [| e ref IH]; simpl; intros H; [lia |].
  inversion H as [| ? ? Hnot Hrest]; subst.
  destruct (Ts.eqb (fst e) t) eqn:E; [| apply IH; exact Hrest].
  apply TsFacts.eqb_eq in E.
  assert (Hnone : filter (fun e0 => Ts.eqb (fst e0) t) ref = []).
  { destruct (filter (fun e0 => Ts.eqb (fst e0) t) ref) as [| e' l] eqn:F; [reflexivity |].
    exfalso. assert (Hin : In e' (filter (fun e0 => Ts.eqb (fst e0) t) ref))
      by (rewrite F; left; reflexivity).
    apply filter_In in Hin. destruct Hin as [Hin He'].
    apply TsFacts.eqb_eq in He'. apply Hnot. rewrite E, <- He'. apply in_map. exact Hin. }
  rewrite Hnone. simpl. lia.
Qed.

(** With at most one reference entry per month the join gives each row
    exactly one row. *)
Lemma join_row_single (ref : ReferenceIndex) (r : Row datetime) :
  NoDup (map fst ref) -> exists v, Frame.join_row ref r = [Frame.set_cpi_us r v].
Proof.
  intros H. unfold Frame.join_row, Frame.matches.
  destruct (fecha r) as [t |]; [| exists nan; reflexivity].
  pose proof (@matches_unique ref t H) as L.
  destruct (filter (fun e => Ts.eqb (fst e) t) ref) as [| e [| e' ms]].
  - exists nan. reflexivity.
  - exists (snd e). reflexivity.
  - simpl in L. lia.
Qed.


Lemma merge_all_inr (parse : string -> option Timestamp) (input : DataFrame datelike)
  (ref : ReferenceIndex) (df : DataFrame datetime) :
  merge_all parse input ref = inr df ->
  has_column "fecha" input = true /\ has_column "sueldo_nominal_ars" input = true.
Proof.
  unfold merge_all.
  destruct (has_column "fecha" input), (has_column "sueldo_nominal_ars" input); simpl;
    try discriminate. auto.
Qed.





(** ** An empty [cpi_us] column *)

(** C10: the join is decided by the name [cpi_us] alone.  For an input
    whose [cpi_us] column exists and holds no value, the merged table is the
    same whatever the reference index holds, its [cpi_us] cells are all
    missing, no [usd_real] watermark is computed, and in every window the
    foreign base level is unresolved, [usd_real] is missing on every row and
    is left out of [series]. *)
Theorem empty_cpi_us_column_blocks_join (parse : string -> option Timestamp)
  (input : DataFrame datelike) (ref : ReferenceIndex) :
  has_column "fecha" input = true ->
  has_column "sueldo_nominal_ars" input = true ->
  has_column "cpi_us" input = true ->
  (forall r, In r (rows input) -> is_nan (cpi_us r) = true) ->
  exists df,
    merged_table parse input ref = inr df /\
    (forall other, merged_table parse input other = inr df) /\
    (forall r, In r (rows df) -> cpi_us r = nan) /\
    available df usd_real_needs = false /\
    ~ In "usd_real"%string (map fst (watermarks df)) /\
    forall start_date end_date bm,
      cpi_us_base (window df start_date end_date) bm = None /\
      (forall o, In o (derive (window df start_date end_date) bm) -> usd_real o = nan) /\
      ~ In "usd_real"%string (series_of (derive (window df start_date end_date) bm)).
Proof.
  intros Hf Hs Hc Hnan.
  pose proof (merge_all_shape parse input) as Shape.
  specialize (fun r => Shape r Hf Hs). cbv zeta in Shape. rewrite Hc in Shape.
  eexists. split; [unfold merged_table; rewrite Shape; reflexivity |].
  split; [intros other; unfold merged_table; rewrite Shape; reflexivity |].
  assert (Hall : forall r,
             In r (rows (Frame.sort_values
                {| columns := keep_columns input;
                   rows := Frame.sort_rows (map (Frame.select (keep_columns input))
                                                (map (normalize_row parse) (rows input))) |})) ->
             cpi_us r = nan).
  { simpl. intros r Hr.
    apply (Permutation_in _ (FrameFacts.sort_rows_perm _)) in Hr.
    apply (Permutation_in _ (FrameFacts.sort_rows_perm _)) in Hr.
    rewrite map_map in Hr. apply in_map_iff in Hr. destruct Hr as [r0 [E Hr0]].
    subst r. unfold Frame.select, normalize_row. cbn [cpi_us].
    destruct (existsb (String.eqb "cpi_us") (keep_columns input)); [| reflexivity].
    apply CellFacts.is_nan_eq. apply Hnan. exact Hr0. }
  split; [exact Hall |].
  match goal with
  | |- available ?d _ = false /\ _ => set (df := d) in *
  end.
  assert (Hany : Cell.any_notna (map (@cpi_us datetime) (rows df)) = false).
  { apply any_notna_all_nan. intros x Hx. apply in_map_iff in Hx.
    destruct Hx as [r [E Hr]]. subst x. apply Hall. exact Hr. }
  assert (Hav : available df usd_real_needs = false).
  { unfold available, usd_real_needs. cbn [forallb fst snd]. rewrite Hany.
    rewrite andb_false_r. apply andb_false_r. }
  split; [exact Hav |].
  split.
  { unfold watermarks. rewrite Hav, app_nil_r.
    destruct (available df ars_real_needs); simpl; [| tauto].
    intros [E | []]. discriminate. }
  intros start_date end_date bm.
  assert (Hb : cpi_us_base (window df start_date end_date) bm = None).
  { apply base_level_None. right. intros r Hr. unfold window in Hr. simpl in Hr.
    apply filter_In in Hr. destruct Hr as [Hr _]. unfold provides.
    rewrite (Hall r Hr). apply andb_false_r. }
  split; [exact Hb |].
  split; [apply derive_without_us_base; exact Hb |].
  apply series_of_without with (col := usd_real); [right; auto |].
  apply derive_without_us_base; exact Hb.
Qed.

Lemma empty_cpi_us_column_blocks_join_witness :
  exists df,
    merged_table Samples.no_text Samples.foreign_blank Samples.fred = inr df /\
    map (@cpi_us datetime) (rows df) = [nan; nan] /\
    ~ In "usd_real"%string
        (series_of (derive (window df (Some (Samples.ym 2023 1)) (Some (Samples.ym 2023 2)))
                           (Some (Samples.ym 2023 2)))).
Proof.
  destruct (@empty_cpi_us_column_blocks_join Samples.no_text Samples.foreign_blank
              Samples.fred eq_refl eq_refl eq_refl) as [df [Hm [_ [_ [_ [_ Hw]]]]]].
  - intros r [E | [E | []]]; subst r; reflexivity.
  - exists df. split; [exact Hm |].
    split.
    + vm_compute in Hm. inversion Hm. reflexivity.
    + apply (Hw (Some (Samples.ym 2023 1)) (Some (Samples.ym 2023 2))
                (Some (Samples.ym 2023 2))).
Defined.

Lemma base_level_carry_backward_witness :
  exists b,
    cpi_ar_base (window (Frame.sort_values Samples.index_gap)
                        (Some (Samples.ym 2023 1)) (Some (Samples.ym 2023 3)))
                (Some (Samples.ym 2023 2)) = Some b /\
    exists r,
      In r (rows (window (Frame.sort_values Samples.index_gap)
                         (Some (Samples.ym 2023 1)) (Some (Samples.ym 2023 3)))) /\
      cpi_ar r = b /\
      provides (@cpi_ar datetime) (Some (Samples.ym 2023 2)) r = true /\
      fecha r = Some (Samples.ym 2023 1).
Proof.
  destruct (proj1 (base_level_carry_backward Samples.index_gap
                     (Some (Samples.ym 2023 1)) (Some (Samples.ym 2023 3))
                     (Some (Samples.ym 2023 2))) eq_refl)
    as [b [Hb [r [Hin [Hc [Hp _]]]]]].
  - exists (Samples.row (Some (Samples.ym 2023 1)) 1000 nan 100 nan).
    split; [left; reflexivity | reflexivity].
  - exists b. split; [exact Hb |]. exists r.
    split; [exact Hin |]. split; [exact Hc |]. split; [exact Hp |].
    destruct Hin as [E | [E | [E | []]]]; subst r; try reflexivity; discriminate.
Defined.

(** * Further properties of the pipeline *)

(** ** Months as join keys *)

(** X1: normalisation keeps the order of dates and identifies exactly the
    dates of one calendar month: for two cells that parse, the earlier one
    normalises to a month at or before the other's, and the two normalise to
    the same value iff they agree on year and month. *)
Theorem month_start_cell_order (parse : string -> option Timestamp) (x y : datelike)
  (a b : Timestamp) :
  to_datetime parse x = Some a ->
  to_datetime parse y = Some b ->
  (Ts.leb a b = true ->
   Dt.leb (month_start_cell parse x) (month_start_cell parse y) = true) /\
  (month_start_cell parse x = month_start_cell parse y <->
   year a = year b /\ month a = month b).
Proof.
  intros Hx Hy. unfold month_start_cell. rewrite Hx, Hy. simpl. split.
  - rewrite !TsFacts.leb_le. unfold Ts.le, Ts.month_start; simpl. lia.
  - unfold Ts.month_start. split.
    + intros E. inversion E. auto.
    + intros [E1 E2]. rewrite E1, E2. reflexivity.
Qed.

Lemma month_start_cell_order_witness :
  Dt.leb (month_start_cell Samples.no_text (Stamp (Samples.on_day 2023 1 5)))
         (month_start_cell Samples.no_text (Stamp (Samples.on_day 2023 1 20))) = true.
Proof.
  apply (@month_start_cell_order Samples.no_text
           (Stamp (Samples.on_day 2023 1 5)) (Stamp (Samples.on_day 2023 1 20))
           (Samples.on_day 2023 1 5) (Samples.on_day 2023 1 20) eq_refl eq_refl).
  reflexivity.
Defined.

(** ** Missing salaries and exchange rates *)

(** X2: a missing input makes the values derived from it missing.  On a
    row without a salary all three derived values are missing; on a row
    without an exchange rate the two foreign values are missing. *)
Theorem missing_inputs_propagate (df : DataFrame datetime) (bm : datetime) (i : nat)
  (r : Row datetime) :
  nth_error (rows df) i = Some r ->
  exists o,
    nth_error (derive df bm) i = Some o /\
    (is_nan (sueldo_nominal_ars r) = true ->
     ars_real o = nan /\ usd_nominal o = nan /\ usd_real o = nan) /\
    (is_nan (usd_ars r) = true -> usd_nominal o = nan /\ usd_real o = nan).
Proof.
  intros Hi. eexists. split; [apply nth_error_derive; exact Hi |].
  unfold derive_row; simpl. split.
  - intros Hn. apply CellFacts.is_nan_eq in Hn. rewrite Hn.
    split; [| split].
    + destruct (cpi_ar_base df bm); [apply CellFacts.mul_nan_l | reflexivity].
    + destruct (has_fx df); [apply CellFacts.div_nan_l | reflexivity].
    + destruct (has_fx df); [| reflexivity].
      destruct (cpi_us_base df bm); [| reflexivity].
      rewrite CellFacts.div_nan_l. apply CellFacts.mul_nan_l.
  - intros Hn. apply CellFacts.is_nan_eq in Hn. rewrite Hn.
    split.
    + destruct (has_fx df); [apply CellFacts.div_nan_r | reflexivity].
    + destruct (has_fx df); [| reflexivity].
      destruct (cpi_us_base df bm); [| reflexivity].
      rewrite CellFacts.div_nan_r. apply CellFacts.mul_nan_l.
Qed.

Lemma missing_inputs_propagate_witness :
  exists o,
    nth_error (derive Samples.resolver_a (Some (Samples.ym 2023 2))) 0 = Some o /\
    ars_real o = nan /\ usd_nominal o = nan /\ usd_real o = nan.
Proof.
  destruct (@missing_inputs_propagate Samples.resolver_a (Some (Samples.ym 2023 2)) 0%nat
              (Samples.row (Some (Samples.ym 2023 1)) nan 200 100 100) eq_refl)
    as [o [Ho [Hs _]]].
  exists o. split; [exact Ho |]. apply Hs. reflexivity.
Defined.

(** ** The merged table *)

Lemma keep_In_sueldo (D : Type) (df : DataFrame D) :
  existsb (String.eqb "sueldo_nominal_ars") (keep_columns df) = true.
Proof. reflexivity. Qed.

Lemma keep_columns_In (D : Type) (df : DataFrame D) (c : string) :
  In c (keep_columns df) <->
  c = "fecha"%string \/ c = "sueldo_nominal_ars"%string \/
  (has_column c df = true /\
   (c = "usd_ars"%string \/ c = "cpi_ar"%string \/ c = "cpi_us"%string)).
Proof.
  unfold keep_columns. rewrite in_app_iff, filter_In. simpl.
  split.
  - intros [[H | [H | []]] | [H Hc]]; auto.
    right. right. split; [exact Hc |]. intuition auto.
  - intros [H | [H | [Hc H]]]; auto.
    right. split; [| exact Hc]. intuition auto.
Qed.

(** X3: [merge_all] retains only the recognised columns.  The columns of
    its result are [fecha], [sueldo_nominal_ars] and [cpi_us], plus [usd_ars]
    and [cpi_ar] exactly when the input has them; any other input column is
    gone. *)
Theorem merge_all_columns (parse : string -> option Timestamp)
  (input : DataFrame datelike) (ref : ReferenceIndex) (df : DataFrame datetime) :
  merge_all parse input ref = inr df ->
  forall c,
    In c (columns df) <->
    c = "fecha"%string \/ c = "sueldo_nominal_ars"%string \/ c = "cpi_us"%string \/
    (c = "usd_ars"%string /\ In c (columns input)) \/
    (c = "cpi_ar"%string /\ In c (columns input)).
Proof.
  intros M c.
  destruct (@merge_all_inr _ _ _ _ M) as [Hf Hs].
  pose proof (merge_all_shape parse input ref Hf Hs) as Shape. cbv zeta in Shape.
  rewrite M in Shape.
  assert (Hcols : forall (l : list string) (rs : list (Row datetime)),
             columns {| columns := l; rows := rs |} = l) by reflexivity.
  destruct (has_column "cpi_us" input) eqn:Hc;
    match type of Shape with
    | inr _ = inr ?d => assert (E : df = d) by congruence
    end; rewrite E, Hcols.
  - rewrite keep_columns_In, <- has_column_In.
    split; intros H; intuition (subst; auto 10).
  - rewrite in_app_iff, keep_columns_In, <- has_column_In. cbn [In].
    split; intros H; intuition (subst; auto 10); congruence.
Qed.

Lemma merge_all_columns_witness :
  exists df,
    merge_all Samples.no_text Samples.with_foreign Samples.fred = inr df /\
    In "usd_ars"%string (columns df) /\ ~ In "cpi_ar"%string (columns df).
Proof.
  eexists. split; [reflexivity |].
  split.
  - apply (@merge_all_columns Samples.no_text Samples.with_foreign Samples.fred _ eq_refl).
    right. right. right. left. split; [reflexivity |]. simpl. auto.
  - intros H.
    apply (@merge_all_columns Samples.no_text Samples.with_foreign Samples.fred _ eq_refl) in H.
    destruct H as [H | [H | [H | [[H _] | [_ H]]]]]; try discriminate.
    simpl in H. intuition discriminate.
Defined.

Lemma join_row_keeps (ref : ReferenceIndex) (r x : Row datetime) :
  In x (Frame.join_row ref r) ->
  fecha x = fecha r /\ sueldo_nominal_ars x = sueldo_nominal_ars r /\
  usd_ars x = usd_ars r /\ cpi_ar x = cpi_ar r.
Proof.
  intros H. apply join_row_In in H.
  destruct H as [[t [v [_ [_ E]]]] | [_ E]]; subst x; simpl; auto.
Qed.

Lemma join_row_length (ref : ReferenceIndex) (r : Row datetime) :
  (1 <= List.length (Frame.join_row ref r))%nat.
Proof.
  unfold Frame.join_row. destruct (Frame.matches ref (fecha r)); simpl; lia.
Qed.

Lemma left_merge_length (ref : ReferenceIndex) (l : list (Row datetime)) :
  (List.length l <= List.length (Frame.left_merge l ref))%nat /\
  (NoDup (map fst ref) -> List.length (Frame.left_merge l ref) = List.length l).
Proof.
  unfold Frame.left_merge. induction l as [| r l [IH1 IH2]]; simpl; [auto |].
  rewrite length_app. pose proof (join_row_length ref r) as L. split; [lia |].
  intros H. destruct (@join_row_single ref r H) as [v E]. rewrite E. simpl.
  rewrite (IH2 H). reflexivity.
Qed.

(** X4: the merge loses no row and invents none.  Every input row has a
    row in the result with its normalised month and its salary, every row of
    the result comes from an input row in that way, and the result has as
    many rows as the input when the input brought its own [cpi_us] or the
    reference index has at most one entry per month (never fewer). *)
Theorem merge_all_rows (parse : string -> option Timestamp)
  (input : DataFrame datelike) (ref : ReferenceIndex) (df : DataFrame datetime) :
  merge_all parse input ref = inr df ->
  (forall r, In r (rows input) ->
     exists x, In x (rows df) /\
               fecha x = month_start_cell parse (fecha r) /\
               sueldo_nominal_ars x = sueldo_nominal_ars r) /\
  (forall x, In x (rows df) ->
     exists r, In r (rows input) /\
               fecha x = month_start_cell parse (fecha r) /\
               sueldo_nominal_ars x = sueldo_nominal_ars r) /\
  (List.length (rows input) <= List.length (rows df))%nat /\
  (has_column "cpi_us" input = true \/ NoDup (map fst ref) ->
   List.length (rows df) = List.length (rows input)).
Proof.
  intros M.
  destruct (@merge_all_inr _ _ _ _ M) as [Hf Hs].
  pose proof (merge_all_shape parse input ref Hf Hs) as Shape. cbv zeta in Shape.
  rewrite M in Shape.
  set (sorted := Frame.sort_rows (map (Frame.select (keep_columns input))
                                      (map (normalize_row parse) (rows input)))) in *.
  assert (Hlen : List.length sorted = List.length (rows input)).
  { unfold sorted. rewrite (Permutation_length (FrameFacts.sort_rows_perm _)).
    rewrite !length_map. reflexivity. }
  assert (Hrows : forall (l : list string) (rs : list (Row datetime)),
             rows {| columns := l; rows := rs |} = rs) by reflexivity.
  destruct (has_column "cpi_us" input) eqn:Hc;
    match type of Shape with
    | inr _ = inr ?d => assert (E : df = d) by congruence
    end; rewrite E, Hrows; clear E Shape.
  - split; [| split; [| split]].
    + intros r Hr. exists (Frame.select (keep_columns input) (normalize_row parse r)).
      split; [apply sorted_rows_In; eauto | split; reflexivity].
    + intros x Hx. apply sorted_rows_In in Hx. destruct Hx as [r [Hr E]].
      exists r. subst x. split; [exact Hr | split; reflexivity].
    + lia.
    + intros _. exact Hlen.
  - split; [| split; [| split]].
    + intros r Hr.
      set (y := Frame.select (keep_columns input) (normalize_row parse r)).
      assert (Hy : In y sorted) by (apply sorted_rows_In; eauto).
      destruct (Frame.join_row ref y) as [| x xs] eqn:J.
      { pose proof (join_row_length ref y) as L. rewrite J in L. simpl in L. lia. }
      assert (Hx : In x (Frame.join_row ref y)) by (rewrite J; left; reflexivity).
      exists x. split.
      * unfold Frame.left_merge. apply in_flat_map. eauto.
      * destruct (join_row_keeps _ _ _ Hx) as [F [S _]]. rewrite F, S.
        split; reflexivity.
    + intros x Hx. unfold Frame.left_merge in Hx. apply in_flat_map in Hx.
      destruct Hx as [y [Hy Hx]]. apply sorted_rows_In in Hy.
      destruct Hy as [r [Hr E]]. exists r. split; [exact Hr |].
      destruct (join_row_keeps _ _ _ Hx) as [F [S _]]. rewrite F, S. subst y.
      split; reflexivity.
    + pose proof (proj1 (left_merge_length ref sorted)). lia.
    + intros [H | H]; [discriminate |].
      rewrite (proj2 (left_merge_length ref sorted) H). exact Hlen.
Qed.

Lemma merge_all_rows_witness :
  exists df,
    merge_all Samples.no_text Samples.without_foreign Samples.fred = inr df /\
    List.length (rows df) = 2%nat.
Proof.
  eexists. split; [reflexivity |].
  apply (@merge_all_rows Samples.no_text Samples.without_foreign Samples.fred _ eq_refl).
  right. vm_compute. repeat constructor; simpl; intuition discriminate.
Defined.

(** ** The reference index *)

Lemma clean_reference_In (parse : string -> option Timestamp)
  (csv : list (datelike * float)) (t : Timestamp) (v : float) :
  In (t, v) (clean_reference parse csv) <->
  exists d, In (d, v) csv /\ month_start_cell parse d = Some t /\ Cell.notna v = true.
Proof.
  unfold clean_reference. rewrite in_flat_map. split.
  - intros [[d w] [Hin H]]. simpl in H.
    destruct (month_start_cell parse d) as [t' |] eqn:E; [| destruct H].
    destruct (Cell.notna w) eqn:N; [| destruct H].
    destruct H as [H | []]. inversion H; subst. exists d. auto.
  - intros [d [Hin [E N]]]. exists (d, v). split; [exact Hin |].
    simpl. rewrite E, N. left. reflexivity.
Qed.

Lemma month_start_cell_first_day (parse : string -> option Timestamp) (d : datelike)
  (t : Timestamp) :
  month_start_cell parse d = Some t -> day t = 1%Z /\ nanos t = 0%Z.
Proof.
  unfold month_start_cell. destruct (to_datetime parse d); [| discriminate].
  intros H. inversion H. auto.
Qed.

Lemma load_reference_notna (parse : string -> option Timestamp)
  (fetched : option (list (datelike * float))) (t : Timestamp) (v : float) :
  In (t, v) (load_reference parse fetched) -> Cell.notna v = true.
Proof.
  destruct fetched as [csv |]; simpl; [| intros []].
  intros H. apply clean_reference_In in H. destruct H as [d [_ [_ N]]]. exact N.
Qed.

(** X5: the reference index that the pipeline uses holds exactly the lines
    of the downloaded table that have a date that parses and a level, each
    under the first day of its month, with no missing level; when the fetch
    raised, it is empty. *)
Theorem load_reference_entries (parse : string -> option Timestamp)
  (fetched : option (list (datelike * float))) :
  (forall t v,
     In (t, v) (load_reference parse fetched) <->
     exists csv d, fetched = Some csv /\ In (d, v) csv /\
                   month_start_cell parse d = Some t /\ Cell.notna v = true) /\
  (forall e, In e (load_reference parse fetched) ->
     Cell.notna (snd e) = true /\ day (fst e) = 1%Z /\ nanos (fst e) = 0%Z) /\
  (fetched = None -> load_reference parse fetched = []).
Proof.
  assert (Hiff : forall t v,
     In (t, v) (load_reference parse fetched) <->
     exists csv d, fetched = Some csv /\ In (d, v) csv /\
                   month_start_cell parse d = Some t /\ Cell.notna v = true).
  { intros t v. destruct fetched as [csv |]; simpl.
    - rewrite clean_reference_In. split.
      + intros [d H]. exists csv, d. tauto.
      + intros [csv' [d [E H]]]. inversion E; subst. eauto.
    - split; [intros [] | intros [csv [d [E _]]]; discriminate]. }
  split; [exact Hiff |]. split.
  - intros [t v] H. apply Hiff in H. destruct H as [csv [d [_ [_ [E N]]]]].
    simpl. split; [exact N |]. eapply month_start_cell_first_day; exact E.
  - intros E. rewrite E. reflexivity.
Qed.

(** X6: after the join with the loaded reference index, a row has a
    [cpi_us] value exactly when the reference index has an entry for its
    month: a missing [cpi_us] always means "no reference for this month". *)
Theorem joined_cpi_us_present (parse : string -> option Timestamp)
  (input : DataFrame datelike) (fetched : option (list (datelike * float)))
  (df : DataFrame datetime) :
  has_column "cpi_us" input = false ->
  merge_all parse input (load_reference parse fetched) = inr df ->
  forall x, In x (rows df) ->
    (Cell.notna (cpi_us x) = true <->
     exists t, fecha x = Some t /\ In t (map fst (load_reference parse fetched))).
Proof.
  intros Hc M x Hx.
  destruct (@merge_all_inr _ _ _ _ M) as [Hf Hs].
  pose proof (merge_all_shape parse input (load_reference parse fetched) Hf Hs) as Shape.
  cbv zeta in Shape. rewrite M, Hc in Shape.
  assert (E : df = {| columns := keep_columns input ++ ["cpi_us"%string];
                      rows := Frame.left_merge
                                (Frame.sort_rows
                                   (map (Frame.select (keep_columns input))
                                        (map (normalize_row parse) (rows input))))
                                (load_reference parse fetched) |}) by congruence.
  rewrite E in Hx. simpl in Hx. unfold Frame.left_merge in Hx. apply in_flat_map in Hx.
  destruct Hx as [y [_ Hx]].
  pose proof (FrameFacts.join_row_fecha _ _ _ Hx) as F.
  apply join_row_In in Hx.
  destruct Hx as [[t [v [Ht [Hin Ex]]]] | [Hno Ex]]; subst x; simpl in *.
  - split.
    + intros _. exists t. split; [exact Ht |].
      change t with (fst (t, v)). apply in_map. exact Hin.
    + intros _. apply (load_reference_notna _ _ _ _ Hin).
  - split; [discriminate |].
    intros [t [Ht Hin]]. exfalso. apply in_map_iff in Hin.
    destruct Hin as [[t' v] [Et Hin]]. simpl in Et. subst t'.
    apply (Hno t v Ht Hin).
Qed.

Lemma joined_cpi_us_present_witness :
  exists df,
    merge_all Samples.no_text Samples.without_foreign
              (load_reference Samples.no_text
                 (Some [(Stamp (Samples.on_day 2023 1 1), 299.5%float);
                        (Text "2023-02-01", 300.75%float);
                        (Stamp (Samples.on_day 2023 3 1), nan)])) = inr df /\
    forall x, In x (rows df) ->
      (Cell.notna (cpi_us x) = true <-> fecha x = Some (Samples.ym 2023 1)).
Proof.
  eexists. split; [reflexivity |].
  intros x Hx.
  rewrite (@joined_cpi_us_present Samples.no_text Samples.without_foreign _ _
             eq_refl eq_refl x Hx).
  simpl. split.
  - intros [t [Ht [E | []]]]. rewrite Ht, <- E. reflexivity.
  - intros E. exists (Samples.ym 2023 1). split; [exact E | left; reflexivity].
Defined.

(** ** Outcomes of the analysis *)

Lemma window_nil (df : DataFrame datetime) (s e : datetime) :
  rows (window df s e) = [] <->
  forall r, In r (rows df) -> Dt.leb s (fecha r) && Dt.leb (fecha r) e = false.
Proof.
  unfold window; simpl. split.
  - intros H r Hr.
    destruct (Dt.leb s (fecha r) && Dt.leb (fecha r) e) eqn:E; [| reflexivity].
    assert (Hin : In r (filter (fun r => Dt.leb s (fecha r) && Dt.leb (fecha r) e) (rows df)))
      by (apply filter_In; auto).
    rewrite H in Hin. destruct Hin.
  - intros H. induction (rows df) as [| r l IH]; simpl; [reflexivity |].
    rewrite (H r (or_introl eq_refl)). apply IH. intros x Hx. apply H. right. exact Hx.
Qed.

Lemma analyse_empty_iff (df : DataFrame datetime) (s e : datetime)
  (bc : option Timestamp) :
  analyse df s e bc = inl EmptyRangeError <-> rows (window df s e) = [].
Proof.
  unfold analyse. destruct (rows (window df s e)) as [| r l] eqn:W.
  - split; reflexivity.
  - split; [| discriminate]. destruct (series_of _); discriminate.
Qed.

(** X7: the analysis stops with [EmptyRangeError] exactly when no row of
    the table has its month inside the selected range (ends included); a row
    without a month is never in range, and a range with a missing end holds
    no row. *)
Theorem analyse_empty_range (df : DataFrame datetime) (start_date end_date : datetime)
  (base_choice : option Timestamp) :
  (analyse df start_date end_date base_choice = inl EmptyRangeError <->
   forall r, In r (rows df) ->
     Dt.leb start_date (fecha r) && Dt.leb (fecha r) end_date = false) /\
  (forall r, In r (rows df) -> fecha r = None ->
     ~ In r (rows (window df start_date end_date))) /\
  (start_date = None \/ end_date = None ->
   analyse df start_date end_date base_choice = inl EmptyRangeError).
Proof.
  assert (Hiff : analyse df start_date end_date base_choice = inl EmptyRangeError <->
                 forall r, In r (rows df) ->
                   Dt.leb start_date (fecha r) && Dt.leb (fecha r) end_date = false).
  { rewrite <- window_nil. apply analyse_empty_iff. }
  split; [exact Hiff |]. split.
  - intros r _ Hf Hin. unfold window in Hin. simpl in Hin. apply filter_In in Hin.
    destruct Hin as [_ Hin]. rewrite Hf in Hin.
    destruct start_date; discriminate.
  - intros H. apply Hiff. intros r _. destruct H as [H | H]; subst.
    + reflexivity.
    + destruct (fecha r), start_date; simpl; auto using andb_false_r.
Qed.

Lemma series_of_ars (out : list OutRow) :
  In "ars_real"%string (series_of out) <-> Cell.any_notna (map ars_real out) = true.
Proof.
  unfold series_of.
  destruct (Cell.any_notna (map ars_real out)), (Cell.any_notna (map usd_real out)); simpl;
    intuition (try discriminate; try congruence).
Qed.

Lemma series_of_usd (out : list OutRow) :
  In "usd_real"%string (series_of out) <-> Cell.any_notna (map usd_real out) = true.
Proof.
  unfold series_of.
  destruct (Cell.any_notna (map ars_real out)), (Cell.any_notna (map usd_real out)); simpl;
    intuition (try discriminate; try congruence).
Qed.

Lemma any_notna_exists (A : Type) (col : A -> float) (l : list A) :
  Cell.any_notna (map col l) = true <-> exists o, In o l /\ Cell.notna (col o) = true.
Proof.
  rewrite CellFacts.any_notna_true. split.
  - intros [x [Hx N]]. apply in_map_iff in Hx. destruct Hx as [o [E Ho]]. subst x. eauto.
  - intros [o [Ho N]]. exists (col o). split; [apply in_map; exact Ho | exact N].
Qed.

Lemma analyse_all_missing (df : DataFrame datetime) (s e : datetime)
  (bc : option Timestamp) :
  rows (window df s e) <> [] ->
  (forall o,
     In o (derive (window df s e)
                  match bc with
                  | None => Dt.max (map (@fecha datetime) (rows (window df s e)))
                  | Some b => Some b
                  end) ->
     ars_real o = nan /\ usd_real o = nan) ->
  analyse df s e bc = inl NoDerivableSeriesError.
Proof.
  intros Hne Hall. unfold analyse.
  destruct (rows (window df s e)) as [| r0 l0] eqn:W; [congruence |].
  match goal with
  | |- context [series_of ?d] => set (o := d) in *
  end.
  assert (Ha : Cell.any_notna (map ars_real o) = false).
  { apply any_notna_all_nan. intros x Hx. apply in_map_iff in Hx.
    destruct Hx as [y [E Hy]]. subst x. apply (Hall y Hy). }
  assert (Hu : Cell.any_notna (map usd_real o) = false).
  { apply any_notna_all_nan. intros x Hx. apply in_map_iff in Hx.
    destruct Hx as [y [E Hy]]. subst x. apply (Hall y Hy). }
  unfold series_of. rewrite Ha, Hu. reflexivity.
Qed.

Lemma analyse_inr (df : DataFrame datetime) (s e : datetime) (bc : option Timestamp)
  (a : Analysis) :
  analyse df s e bc = inr a ->
  df_r a = window df s e /\ out a = derive (df_r a) (base_month a).
Proof.
  unfold analyse. destruct (rows (window df s e)); [discriminate |].
  destruct (series_of _); [discriminate |].
  intros E. inversion E; subst a. split; reflexivity.
Qed.

(** [analyse] on a non-empty window: it ends without a series exactly when
    both real series are missing on every row, and otherwise returns the
    derived table with the series that have a present value. *)
Lemma analyse_series (df : DataFrame datetime) (start_date end_date : datetime)
  (base_choice : option Timestamp) :
  let df_w := window df start_date end_date in
  let bm := match base_choice with
            | None => Dt.max (map (@fecha datetime) (rows df_w))
            | Some b => Some b
            end in
  rows df_w <> [] ->
  (analyse df start_date end_date base_choice = inl NoDerivableSeriesError <->
   forall o, In o (derive df_w bm) ->
     Cell.notna (ars_real o) = false /\ Cell.notna (usd_real o) = false) /\
  (forall a, analyse df start_date end_date base_choice = inr a ->
     df_r a = df_w /\ base_month a = bm /\ out a = derive df_w bm /\
     List.length (out a) = List.length (rows df_w) /\
     series a <> [] /\
     (In "ars_real"%string (series a) <->
      exists o, In o (out a) /\ Cell.notna (ars_real o) = true) /\
     (In "usd_real"%string (series a) <->
      exists o, In o (out a) /\ Cell.notna (usd_real o) = true) /\
     (forall n, In n (series a) -> n = "ars_real"%string \/ n = "usd_real"%string)).
Proof.
  intros df_w bm Hne. unfold analyse. fold df_w.
  destruct (rows df_w) as [| r0 l0] eqn:W; [congruence |]. fold bm.
  pose proof (series_of_ars (derive df_w bm)) as Ha.
  pose proof (series_of_usd (derive df_w bm)) as Hu.
  rewrite any_notna_exists in Ha, Hu.
  split.
  - destruct (series_of (derive df_w bm)) as [| n ns] eqn:S.
    + split; [| reflexivity]. intros _ o Ho.
      destruct (Cell.notna (ars_real o)) eqn:Na.
      { exfalso. apply (proj2 Ha). eauto. }
      destruct (Cell.notna (usd_real o)) eqn:Nu.
      { exfalso. apply (proj2 Hu). eauto. }
      auto.
    + split; [discriminate |]. intros Hall. exfalso.
      assert (Hn : n = "ars_real"%string \/ n = "usd_real"%string).
      { unfold series_of in S.
        destruct (Cell.any_notna (map ars_real (derive df_w bm))),
          (Cell.any_notna (map usd_real (derive df_w bm))); simpl in S;
          inversion S; auto. }
      destruct Hn as [Hn | Hn]; subst n.
      * destruct (proj1 Ha (or_introl eq_refl)) as [o [Ho N]].
        destruct (Hall o Ho) as [N' _]. congruence.
      * destruct (proj1 Hu (or_introl eq_refl)) as [o [Ho N]].
        destruct (Hall o Ho) as [_ N']. congruence.
  - intros a. destruct (series_of (derive df_w bm)) as [| n ns] eqn:S; [discriminate |].
    intros E. inversion E; subst a; simpl. clear E.
    split; [reflexivity |]. split; [reflexivity |]. split; [reflexivity |].
    split; [unfold derive; rewrite length_map, W; reflexivity |].
    split; [discriminate |].
    split; [exact Ha |]. split; [exact Hu |].
    intros m Hm0.
    assert (Hm : In m (series_of (derive df_w bm))) by (rewrite S; exact Hm0).
    unfold series_of in Hm.
    destruct (Cell.any_notna (map ars_real (derive df_w bm))),
      (Cell.any_notna (map usd_real (derive df_w bm))); simpl in Hm; intuition auto.
Qed.

Lemma dashboard_analyse (df : DataFrame datetime) (s e : datetime)
  (bc : option Timestamp) :
  dashboard df s e bc =
    match rows (window df s e) with
    | [] => Stops EmptyRangeError
    | _ :: _ =>
        match last_common_of df with
        | None => Raises NaTFormatError
        | Some _ =>
            match analyse df s e bc with
            | inl x => Stops x
            | inr a => Returns a
            end
        end
    end.
Proof.
  unfold dashboard, analyse.
  destruct (rows (window df s e)); [reflexivity |].
  destruct (last_common_of df); [| reflexivity].
  destruct (series_of _); reflexivity.
Qed.

(** X8: what the script does with a non-empty window (lines 130-168).
    When the resolver reported no last common month it raises at line 164,
    whatever the series hold.  Otherwise it stops with
    [NoDerivableSeriesError] exactly when [ars_real] and [usd_real] are
    missing on every row, and else goes on with the table [out] of the
    window, one row per row of the window, and a non-empty list of series in
    which a series appears exactly when it has a present value on some
    row. *)
Theorem dashboard_series (df : DataFrame datetime) (start_date end_date : datetime)
  (base_choice : option Timestamp) :
  let df_w := window df start_date end_date in
  let bm := match base_choice with
            | None => Dt.max (map (@fecha datetime) (rows df_w))
            | Some b => Some b
            end in
  rows df_w <> [] ->
  (last_common_of df = None <->
   dashboard df start_date end_date base_choice = Raises NaTFormatError) /\
  (forall x, dashboard df start_date end_date base_choice = Raises x ->
             x = NaTFormatError) /\
  (dashboard df start_date end_date base_choice = Stops NoDerivableSeriesError <->
   last_common_of df <> None /\
   forall o, In o (derive df_w bm) ->
     Cell.notna (ars_real o) = false /\ Cell.notna (usd_real o) = false) /\
  (forall x, dashboard df start_date end_date base_choice = Stops x ->
             x = NoDerivableSeriesError) /\
  (forall a, dashboard df start_date end_date base_choice = Returns a ->
     last_common_of df <> None /\
     df_r a = df_w /\ base_month a = bm /\ out a = derive df_w bm /\
     List.length (out a) = List.length (rows df_w) /\
     series a <> [] /\
     (In "ars_real"%string (series a) <->
      exists o, In o (out a) /\ Cell.notna (ars_real o) = true) /\
     (In "usd_real"%string (series a) <->
      exists o, In o (out a) /\ Cell.notna (usd_real o) = true) /\
     (forall n, In n (series a) -> n = "ars_real"%string \/ n = "usd_real"%string)).
Proof.
  intros df_w bm Hne.
  destruct (@analyse_series df start_date end_date base_choice Hne) as [Hno Hret].
  fold df_w in Hno, Hret. fold bm in Hno, Hret.
  assert (Hnotempty : analyse df start_date end_date base_choice <> inl EmptyRangeError).
  { intros E. apply analyse_empty_iff in E. contradiction. }
  rewrite dashboard_analyse. fold df_w.
  destruct (rows df_w) as [| r0 l0] eqn:W; [congruence |].
  destruct (last_common_of df) as [l |] eqn:L.
  - destruct (analyse df start_date end_date base_choice) as [x | a] eqn:A.
    + assert (Hx : x = NoDerivableSeriesError).
      { destruct x; [| congruence | reflexivity].
        unfold analyse in A. fold df_w in A. rewrite W in A.
        destruct (series_of _); discriminate. }
      subst x.
      split; [split; discriminate |].
      split; [intros x E; discriminate |].
      split.
      { split; [intros _; split; [discriminate | apply Hno; reflexivity] | reflexivity]. }
      split; [intros x E; inversion E; reflexivity | intros a E; discriminate].
    + split; [split; discriminate |].
      split; [intros x E; discriminate |].
      split.
      { split; [discriminate |]. intros [_ Hall].
        apply (proj2 Hno) in Hall. discriminate. }
      split; [intros x E; discriminate |].
      intros a' E. inversion E; subst a'. split; [discriminate |].
      apply Hret. reflexivity.
  - split; [split; reflexivity |].
    split; [intros x E; inversion E; reflexivity |].
    split; [split; [discriminate | intros [H _]; congruence] |].
    split; [intros x E; discriminate | intros a E; discriminate].
Qed.

Lemma dashboard_series_witness :
  dashboard Samples.resolver_b (Some (Samples.ym 2023 2)) (Some (Samples.ym 2023 2)) None
  = Raises NaTFormatError /\
  dashboard {| columns := ["fecha"; "sueldo_nominal_ars"; "cpi_us"]%string;
               rows := [Samples.row (Some (Samples.ym 2023 2)) 1000 nan nan nan] |}
            (Some (Samples.ym 2023 2)) (Some (Samples.ym 2023 2)) None
  = Stops NoDerivableSeriesError.
Proof.
  split.
  - apply (@dashboard_series Samples.resolver_b (Some (Samples.ym 2023 2))
             (Some (Samples.ym 2023 2)) None); [discriminate | reflexivity].
  - apply (@dashboard_series
             {| columns := ["fecha"; "sueldo_nominal_ars"; "cpi_us"]%string;
                rows := [Samples.row (Some (Samples.ym 2023 2)) 1000 nan nan nan] |}
             (Some (Samples.ym 2023 2)) (Some (Samples.ym 2023 2)) None);
      [discriminate |].
    split; [discriminate |].
    intros o [E | []]. subst o. split; reflexivity.
Defined.

(** ** Inputs without optional columns *)

Lemma merged_table_inr (parse : string -> option Timestamp) (input : DataFrame datelike)
  (ref : ReferenceIndex) (df : DataFrame datetime) :
  merged_table parse input ref = inr df ->
  exists df0, merge_all parse input ref = inr df0 /\
              columns df = columns df0 /\ Permutation (rows df) (rows df0).
Proof.
  unfold merged_table. destruct (merge_all parse input ref) as [e | df0]; [discriminate |].
  intros E. inversion E; subst df. exists df0. split; [reflexivity |].
  split; [reflexivity | apply FrameFacts.sort_rows_perm].
Qed.

(** An optional column that the input lacks is not in the merged table. *)
Lemma merge_all_lacks_column (parse : string -> option Timestamp)
  (input : DataFrame datelike) (ref : ReferenceIndex) (df : DataFrame datetime)
  (c : string) :
  merge_all parse input ref = inr df ->
  has_column c input = false ->
  c = "usd_ars"%string \/ c = "cpi_ar"%string ->
  has_column c df = false.
Proof.
  intros M Hc Hn.
  destruct (@merge_all_inr _ _ _ _ M) as [Hf Hs].
  pose proof (merge_all_shape parse input ref Hf Hs) as Shape. cbv zeta in Shape.
  rewrite M in Shape.
  destruct (has_column c df) eqn:E; [| reflexivity]. exfalso.
  apply has_column_In in E.
  assert (Hk : In c (keep_columns input)).
  { destruct (has_column "cpi_us" input);
      match type of Shape with
      | inr _ = inr ?d => assert (Ed : df = d) by congruence
      end; rewrite Ed in E; unfold columns in E; [exact E |].
    apply in_app_or in E. destruct E as [E | [E | []]]; [exact E |].
    destruct Hn as [Hn | Hn]; subst c; discriminate. }
  apply keep_columns_In in Hk.
  destruct Hk as [Hk | [Hk | [Hk _]]].
  - destruct Hn as [Hn | Hn]; subst c; discriminate.
  - destruct Hn as [Hn | Hn]; subst c; discriminate.
  - congruence.
Qed.

(** Joined with an empty reference index, every row has a missing
    [cpi_us]. *)
Lemma left_join_empty_reference (parse : string -> option Timestamp)
  (input : DataFrame datelike) (df : DataFrame datetime) :
  has_column "cpi_us" input = false ->
  merge_all parse input [] = inr df ->
  forall x, In x (rows df) -> cpi_us x = nan.
Proof.
  intros Hc M x Hx.
  destruct (@merge_all_inr _ _ _ _ M) as [Hf Hs].
  pose proof (merge_all_shape parse input [] Hf Hs) as Shape.
  cbv zeta in Shape. rewrite M, Hc in Shape.
  match type of Shape with
  | inr _ = inr ?d => assert (E : df = d) by congruence
  end.
  rewrite E in Hx. unfold rows at 1 in Hx. unfold Frame.left_merge in Hx.
  apply in_flat_map in Hx. destruct Hx as [y [_ Hx]].
  apply join_row_In in Hx.
  destruct Hx as [[t [v [_ [[] _]]]] | [_ Ex]]. subst x. reflexivity.
Qed.

Lemma derive_without_fx (df : DataFrame datetime) (bm : datetime) :
  has_fx df = false -> forall o, In o (derive df bm) -> usd_real o = nan.
Proof.
  intros Hfx o Ho. unfold derive in Ho. apply in_map_iff in Ho.
  destruct Ho as [r [Ho _]]. subst o. rewrite Hfx. reflexivity.
Qed.

(** X9: an input that lacks the optional columns gives nothing to plot.
    When the input has no [cpi_ar] column and either has no [usd_ars] column
    or has no [cpi_us] column while the reference fetch failed, the analysis
    of the merged table stops for every range and base month: with
    [EmptyRangeError] or with [NoDerivableSeriesError]. *)
Theorem no_optional_columns_no_series (parse : string -> option Timestamp)
  (input : DataFrame datelike) (fetched : option (list (datelike * float)))
  (df : DataFrame datetime) :
  merged_table parse input (load_reference parse fetched) = inr df ->
  has_column "cpi_ar" input = false ->
  has_column "usd_ars" input = false \/
  (has_column "cpi_us" input = false /\ fetched = None) ->
  forall start_date end_date base_choice,
    analyse df start_date end_date base_choice = inl EmptyRangeError \/
    analyse df start_date end_date base_choice = inl NoDerivableSeriesError.
Proof.
  intros M Har Hus s e bc.
  destruct (merged_table_inr _ _ _ M) as [df0 [M0 [Hcols Hperm]]].
  assert (Hcol : forall c, has_column c (window df s e) = has_column c df0).
  { intros c. unfold has_column, window. simpl. rewrite Hcols. reflexivity. }
  destruct (rows (window df s e)) as [| r0 l0] eqn:W.
  { left. unfold analyse. rewrite W. reflexivity. }
  right.
  apply analyse_all_missing; [rewrite W; discriminate |].
  set (bm := match bc with
             | None => Dt.max (map (@fecha datetime) (rows (window df s e)))
             | Some b => Some b
             end).
  assert (Har0 : has_column "cpi_ar" (window df s e) = false).
  { rewrite Hcol. apply (merge_all_lacks_column parse input _ M0); [exact Har | auto]. }
  assert (Hb : cpi_ar_base (window df s e) bm = None)
    by (apply base_level_None; left; exact Har0).
  assert (Husd : forall o, In o (derive (window df s e) bm) -> usd_real o = nan).
  { destruct Hus as [Hu | [Hc Hf]].
    - apply derive_without_fx. unfold has_fx. rewrite Hcol.
      rewrite (merge_all_lacks_column parse input _ M0 Hu); [reflexivity | auto].
    - apply derive_without_us_base. apply base_level_None. right.
      intros r Hr. unfold window in Hr. simpl in Hr. apply filter_In in Hr.
      destruct Hr as [Hr _]. apply (Permutation_in _ Hperm) in Hr.
      subst fetched. unfold provides.
      rewrite (left_join_empty_reference parse input Hc M0 r Hr). apply andb_false_r. }
  intros o Ho. split; [apply (derive_without_ar_base _ _ Hb o Ho) | apply (Husd o Ho)].
Qed.

Lemma no_optional_columns_no_series_witness :
  exists df,
    merged_table Samples.no_text Samples.same_month (load_reference Samples.no_text None)
    = inr df /\
    analyse df (Some (Samples.ym 2023 1)) (Some (Samples.ym 2023 2)) None
    = inl NoDerivableSeriesError.
Proof.
  eexists. split; [reflexivity |].
  destruct (@no_optional_columns_no_series Samples.no_text Samples.same_month None _
              eq_refl eq_refl (or_introl eq_refl)
              (Some (Samples.ym 2023 1)) (Some (Samples.ym 2023 2)) None) as [H | H].
  - vm_compute in H. discriminate.
  - exact H.
Defined.

(** ** The default range *)

Lemma py_min_In (x : datetime) (xs : list datetime) : In (Dt.py_min x xs) (x :: xs).
Proof.
  unfold Dt.py_min. revert x. induction xs as [| y xs IH]; intros x; simpl; [auto |].
  destruct (Dt.ltb y x).
  - destruct (IH y) as [E | H]; [right; left; exact E | right; right; exact H].
  - destruct (IH x) as [E | H]; [left; exact E | right; right; exact H].
Qed.

Lemma watermark_member (df : DataFrame datetime) (subset : list (Row datetime -> float))
  (m : Timestamp) :
  watermark df subset = Some m -> In (Some m) (map (@fecha datetime) (rows df)).
Proof.
  intros H. destruct (proj1 (watermark_Some _ _ H)) as [r [Hr [Hf _]]].
  rewrite <- Hf. apply in_map. exact Hr.
Qed.

Lemma last_common_member (df : DataFrame datetime) (l : Timestamp) :
  last_common_of df = Some l -> In (Some l) (map (@fecha datetime) (rows df)).
Proof.
  unfold last_common_of, compute_last_common_month. simpl.
  destruct (map snd (watermarks df)) as [| x xs] eqn:E.
  - intros H. apply (DtFacts.max_Some _ H).
  - intros H. pose proof (py_min_In x xs) as Hin. rewrite H, <- E in Hin.
    apply in_map_iff in Hin. destruct Hin as [[n w] [Ew Hin]]. simpl in Ew. subst w.
    unfold watermarks in Hin. apply in_app_or in Hin.
    destruct Hin as [Hin | Hin].
    + destruct (available df ars_real_needs); [| destruct Hin].
      destruct Hin as [Hin | []]. injection Hin as _ Hw. eapply watermark_member; exact Hw.
    + destruct (available df usd_real_needs); [| destruct Hin].
      destruct Hin as [Hin | []]. injection Hin as _ Hw. eapply watermark_member; exact Hw.
Qed.

(** X10: a last common month, when the resolver reports one, is the month
    of a row of the table; it lies between the reported start and the last
    month of the table. *)
Theorem last_common_within_table (df : DataFrame datetime) (l : Timestamp) :
  last_common_of df = Some l ->
  (exists r, In r (rows df) /\ fecha r = Some l) /\
  (exists f, fst (fst (compute_last_common_month df)) = Some f /\ Ts.leb f l = true) /\
  (exists m, Dt.max (map (@fecha datetime) (rows df)) = Some m /\ Ts.leb l m = true).
Proof.
  intros H. pose proof (last_common_member _ H) as Hin. split; [| split].
  - apply in_map_iff in Hin. destruct Hin as [r [E Hr]]. eauto.
  - simpl. destruct (Dt.min (map (@fecha datetime) (rows df))) as [f |] eqn:E.
    + exists f. split; [reflexivity |]. apply (DtFacts.min_Some _ E). exact Hin.
    + specialize (DtFacts.min_None _ E _ Hin). discriminate.
  - apply DtFacts.max_of_member. exact Hin.
Qed.

Lemma last_common_within_table_witness :
  exists r, In r (rows Samples.resolver_c) /\ fecha r = Some (Samples.ym 2023 1).
Proof.
  apply (@last_common_within_table Samples.resolver_c (Samples.ym 2023 1)).
  reflexivity.
Defined.

(** X11: the default range is never empty.  When the resolver reports a
    last common month and the date picker does not return two dates, the
    range runs from the first month of the table to the last common month,
    and the analysis of that range does not stop with [EmptyRangeError]. *)
Theorem default_range_not_empty (df : DataFrame datetime) (l : Timestamp)
  (date_range : list Timestamp) (base_choice : option Timestamp) :
  last_common_of df = Some l ->
  List.length date_range <> 2%nat ->
  let first := fst (fst (compute_last_common_month df)) in
  choose_range first (last_common_of df) date_range = (first, Some l) /\
  rows (window df first (Some l)) <> [] /\
  analyse df (fst (choose_range first (last_common_of df) date_range))
             (snd (choose_range first (last_common_of df) date_range))
             base_choice <> inl EmptyRangeError.
Proof.
  intros H Hlen first.
  assert (Hc : choose_range first (last_common_of df) date_range = (first, Some l)).
  { rewrite H. destruct date_range as [| a [| b [| c t]]]; try reflexivity.
    simpl in Hlen. congruence. }
  pose proof (last_common_member _ H) as Hl.
  assert (Hmin : exists f, first = Some f /\ Ts.leb f l = true).
  { unfold first. simpl.
    destruct (Dt.min (map (@fecha datetime) (rows df))) as [f |] eqn:E.
    - exists f. split; [reflexivity |]. apply (DtFacts.min_Some _ E). exact Hl.
    - specialize (DtFacts.min_None _ E _ Hl). discriminate. }
  destruct Hmin as [f [Hf Hle]].
  assert (Hin : In (Some f) (map (@fecha datetime) (rows df))).
  { apply (DtFacts.min_Some (map (@fecha datetime) (rows df))). exact Hf. }
  apply in_map_iff in Hin. destruct Hin as [r [Er Hr]].
  assert (Hnot : ~ (forall r, In r (rows df) ->
                      Dt.leb first (fecha r) && Dt.leb (fecha r) (Some l) = false)).
  { intros Hall. specialize (Hall r Hr). rewrite Hf, Er in Hall. simpl in Hall.
    rewrite TsFacts.leb_refl, Hle in Hall. discriminate. }
  split; [exact Hc |]. split.
  - intros W. apply Hnot. apply window_nil. exact W.
  - rewrite Hc. simpl. intros E. apply Hnot.
    apply window_nil. apply (proj1 (analyse_empty_iff df first (Some l) base_choice)).
    exact E.
Qed.

Lemma default_range_not_empty_witness :
  analyse Samples.resolver_c
    (fst (choose_range (fst (fst (compute_last_common_month Samples.resolver_c)))
                       (last_common_of Samples.resolver_c) []))
    (snd (choose_range (fst (fst (compute_last_common_month Samples.resolver_c)))
                       (last_common_of Samples.resolver_c) []))
    None <> inl EmptyRangeError.
Proof.
  apply (@default_range_not_empty Samples.resolver_c (Samples.ym 2023 1) [] None).
  - reflexivity.
  - discriminate.
Defined.

(** X12: a table without a dated row has no range.  The reported start is
    [NaT] exactly when no row has a month, and then the last common month is
    [NaT] as well; this covers the empty table. *)
Theorem undated_table_has_no_range (df : DataFrame datetime) :
  (fst (fst (compute_last_common_month df)) = None <->
   forall r, In r (rows df) -> fecha r = None) /\
  (fst (fst (compute_last_common_month df)) = None -> last_common_of df = None) /\
  (rows df = [] -> compute_last_common_month df = (None, None, [])).
Proof.
  assert (Hiff : fst (fst (compute_last_common_month df)) = None <->
                 forall r, In r (rows df) -> fecha r = None).
  { simpl. split.
    - intros H r Hr. apply (DtFacts.min_None _ H). apply in_map. exact Hr.
    - intros H. destruct (Dt.min (map (@fecha datetime) (rows df))) as [m |] eqn:E;
        [| reflexivity].
      destruct (DtFacts.min_Some _ E) as [Hin _]. apply in_map_iff in Hin.
      destruct Hin as [r [Er Hr]]. rewrite (H r Hr) in Er. discriminate. }
  split; [exact Hiff |]. split.
  - intros H. destruct (last_common_of df) as [l |] eqn:E; [| reflexivity].
    pose proof (last_common_member _ E) as Hin. apply in_map_iff in Hin.
    destruct Hin as [r [Er Hr]]. rewrite (proj1 Hiff H r Hr) in Er. discriminate.
  - intros E. unfold compute_last_common_month, watermarks, available, Cell.any_notna.
    rewrite E. simpl. rewrite !andb_false_r. reflexivity.
Qed.

(** ** The base month *)

Lemma window_In (df : DataFrame datetime) (s e : datetime) (r : Row datetime) :
  In r (rows (window df s e)) <->
  In r (rows df) /\
  exists t, fecha r = Some t /\ Dt.leb s (Some t) = true /\ Dt.leb (Some t) e = true.
Proof.
  unfold window; simpl. rewrite filter_In, andb_true_iff. split.
  - intros [Hr [H1 H2]]. split; [exact Hr |].
    destruct (fecha r) as [t |]; [eauto |].
    destruct s; discriminate.
  - intros [Hr [t [E [H1 H2]]]]. rewrite E. auto.
Qed.

Lemma filter_all (A : Type) (P : A -> bool) (l : list A) :
  (forall x, In x l -> P x = true) -> filter P l = l.
Proof.
  induction l as [| x l IH]; simpl; intros H; [reflexivity |].
  rewrite (H x (or_introl eq_refl)). f_equal. apply IH. intros y Hy. apply H. right. exact Hy.
Qed.

(** X13: with the default base ("last month of the range") the base level
    of an index column is the last present cell of that column in the
    window: it is resolved as soon as the column exists and has a present
    cell in the window. *)
Theorem default_base_level (df : DataFrame datetime) (start_date end_date : datetime)
  (name : string) (col : Row datetime -> float) :
  let df_w := window df start_date end_date in
  let bm := Dt.max (map (@fecha datetime) (rows df_w)) in
  base_level name col df_w bm =
    (if has_column name df_w
     then last_opt (filter Cell.notna (map col (rows df_w)))
     else None) /\
  (has_column name df_w = true ->
   (exists r, In r (rows df_w) /\ Cell.notna (col r) = true) ->
   exists b, base_level name col df_w bm = Some b).
Proof.
  intros df_w bm.
  assert (Hall : filter (fun r => Dt.leb (fecha r) bm) (rows df_w) = rows df_w).
  { apply filter_all. intros r Hr.
    destruct (proj1 (window_In _ _ _ _) Hr) as [_ [t [Et _]]].
    assert (Hin : In (Some t) (map (@fecha datetime) (rows df_w)))
      by (rewrite <- Et; apply in_map; exact Hr).
    destruct (DtFacts.max_of_member _ _ Hin) as [m [Em Hle]].
    unfold bm. rewrite Em, Et. exact Hle. }
  assert (Heq : base_level name col df_w bm =
                if has_column name df_w
                then last_opt (filter Cell.notna (map col (rows df_w)))
                else None).
  { unfold base_level. rewrite Hall.
    destruct (has_column name df_w); [rewrite andb_true_l | reflexivity].
    destruct (Cell.any_notna (map col (rows df_w))) eqn:A; [reflexivity |].
    symmetry.
    assert (Hnil : filter Cell.notna (map col (rows df_w)) = []).
    { destruct (filter Cell.notna (map col (rows df_w))) as [| x xs] eqn:F; [reflexivity |].
      assert (Hx : In x (filter Cell.notna (map col (rows df_w))))
        by (rewrite F; left; reflexivity).
      apply filter_In in Hx. destruct Hx as [Hx N].
      rewrite (CellFacts.any_notna_false _ A x Hx) in N. discriminate. }
    rewrite Hnil. reflexivity. }
  split; [exact Heq |].
  intros Hc [r [Hr N]]. rewrite Heq, Hc.
  destruct (last_opt (filter Cell.notna (map col (rows df_w)))) as [b |] eqn:L; [eauto |].
  apply last_opt_None in L.
  assert (Hin : In (col r) (filter Cell.notna (map col (rows df_w))))
    by (apply filter_In; split; [apply in_map; exact Hr | exact N]).
  rewrite L in Hin. destruct Hin.
Qed.

Lemma default_base_level_witness :
  exists b,
    base_level "cpi_ar" (@cpi_ar datetime)
      (window Samples.index_gap (Some (Samples.ym 2023 1)) (Some (Samples.ym 2023 2)))
      (Dt.max (map (@fecha datetime)
                 (rows (window Samples.index_gap (Some (Samples.ym 2023 1))
                                                 (Some (Samples.ym 2023 2)))))) = Some b.
Proof.
  apply (@default_base_level Samples.index_gap (Some (Samples.ym 2023 1))
           (Some (Samples.ym 2023 2)) "cpi_ar"%string (@cpi_ar datetime)).
  - reflexivity.
  - exists (Samples.row (Some (Samples.ym 2023 1)) 1000 nan 100 nan).
    split; [left; reflexivity | reflexivity].
Defined.

(** X14: a base month picked before the first row of the window resolves
    no base level: levels are carried backward to the base month, never
    forward.  Every real value is then missing, and the script stops with
    [NoDerivableSeriesError], or raises at line 164 when the resolver
    reported no last common month. *)
Theorem base_before_window (df : DataFrame datetime) (start_date end_date : datetime)
  (b : Timestamp) :
  rows (window df start_date end_date) <> [] ->
  (forall r, In r (rows (window df start_date end_date)) ->
             Dt.leb (fecha r) (Some b) = false) ->
  cpi_ar_base (window df start_date end_date) (Some b) = None /\
  cpi_us_base (window df start_date end_date) (Some b) = None /\
  (forall o, In o (derive (window df start_date end_date) (Some b)) ->
             ars_real o = nan /\ usd_real o = nan) /\
  dashboard df start_date end_date (Some b) =
    match last_common_of df with
    | None => Raises NaTFormatError
    | Some _ => Stops NoDerivableSeriesError
    end.
Proof.
  intros Hne Hall.
  assert (Hp : forall col r, In r (rows (window df start_date end_date)) ->
                             provides col (Some b) r = false).
  { intros col r Hr. unfold provides. rewrite (Hall r Hr). reflexivity. }
  assert (Ha : cpi_ar_base (window df start_date end_date) (Some b) = None)
    by (apply base_level_None; right; apply Hp).
  assert (Hu : cpi_us_base (window df start_date end_date) (Some b) = None)
    by (apply base_level_None; right; apply Hp).
  assert (Hnan : forall o, In o (derive (window df start_date end_date) (Some b)) ->
                           ars_real o = nan /\ usd_real o = nan).
  { intros o Ho.
    split; [apply (derive_without_ar_base _ _ Ha o Ho)
           | apply (derive_without_us_base _ _ Hu o Ho)]. }
  split; [exact Ha |]. split; [exact Hu |]. split; [exact Hnan |].
  rewrite dashboard_analyse.
  destruct (rows (window df start_date end_date)) as [| r0 l0] eqn:W; [congruence |].
  destruct (last_common_of df); [| reflexivity].
  rewrite (@analyse_all_missing df start_date end_date (Some b)); [reflexivity | |].
  - rewrite W. discriminate.
  - exact Hnan.
Qed.

Lemma base_before_window_witness :
  dashboard Samples.resolver_c (Some (Samples.ym 2023 1)) (Some (Samples.ym 2023 2))
            (Some (Samples.ym 2022 12)) = Stops NoDerivableSeriesError /\
  dashboard Samples.resolver_a (Some (Samples.ym 2023 1)) (Some (Samples.ym 2023 2))
            (Some (Samples.ym 2022 12)) = Raises NaTFormatError.
Proof.
  split.
  - apply (@base_before_window Samples.resolver_c (Some (Samples.ym 2023 1))
             (Some (Samples.ym 2023 2)) (Samples.ym 2022 12)).
    + discriminate.
    + intros r [E | [E | []]]; subst r; reflexivity.
  - apply (@base_before_window Samples.resolver_a (Some (Samples.ym 2023 1))
             (Some (Samples.ym 2023 2)) (Samples.ym 2022 12)).
    + discriminate.
    + intros r [E | [E | []]]; subst r; reflexivity.
Defined.

(** ** The output table *)

(** X15: the output table of a sorted table is chronological and stays
    inside the range.  Its rows carry, in ascending order, the months and
    salaries of the rows of the window, and every month lies between the
    two ends of the range. *)
Theorem out_chronological (df0 : DataFrame datetime) (start_date end_date : datetime)
  (base_choice : option Timestamp) (a : Analysis) :
  analyse (Frame.sort_values df0) start_date end_date base_choice = inr a ->
  map out_fecha (out a) = map (@fecha datetime) (rows (df_r a)) /\
  map out_sueldo_nominal_ars (out a) = map (@sueldo_nominal_ars datetime) (rows (df_r a)) /\
  StronglySorted (fun o o' => Dt.leb (out_fecha o) (out_fecha o') = true) (out a) /\
  (forall o, In o (out a) ->
     Dt.leb start_date (out_fecha o) = true /\ Dt.leb (out_fecha o) end_date = true).
Proof.
  intros E.
  assert (Hne : rows (window (Frame.sort_values df0) start_date end_date) <> []).
  { intros W. unfold analyse in E. rewrite W in E. discriminate. }
  destruct (analyse_inr _ _ _ _ E) as [Hdf Hout].
  rewrite Hout, Hdf. unfold derive.
  split; [rewrite map_map; reflexivity |].
  split; [rewrite map_map; reflexivity |].
  pose proof (window_ascending df0 start_date end_date) as Hs.
  assert (Hin : forall r, In r (rows (window (Frame.sort_values df0) start_date end_date)) ->
                  exists t, fecha r = Some t /\ Dt.leb start_date (Some t) = true /\
                            Dt.leb (Some t) end_date = true).
  { intros r Hr. apply window_In in Hr. tauto. }
  set (ab := cpi_ar_base _ _). set (ub := cpi_us_base _ _). set (fx := has_fx _).
  clearbody ab ub fx.
  split.
  - revert Hs Hin.
    generalize (rows (window (Frame.sort_values df0) start_date end_date)) as l.
    induction l as [| r l IH]; intros Hs Hin; simpl; [constructor |].
    inversion Hs as [| ? ? Hl Hr]; subst.
    constructor; [apply IH; [exact Hl | intros x Hx; apply Hin; right; exact Hx] |].
    apply Forall_forall. intros o Ho. apply in_map_iff in Ho.
    destruct Ho as [x [Eo Hx]]. subst o. simpl.
    rewrite Forall_forall in Hr. specialize (Hr x Hx). unfold Frame.row_le in Hr.
    destruct (Hin r (or_introl eq_refl)) as [t [Et _]].
    destruct (Hin x (or_intror Hx)) as [t' [Et' _]].
    rewrite Et, Et' in *. exact Hr.
  - intros o Ho. apply in_map_iff in Ho. destruct Ho as [r [Eo Hr]]. subst o. simpl.
    destruct (Hin r Hr) as [t [Et [H1 H2]]]. rewrite Et. auto.
Qed.

Lemma out_chronological_witness :
  exists a,
    analyse (Frame.sort_values Samples.index_gap)
            (Some (Samples.ym 2023 1)) (Some (Samples.ym 2023 3)) None = inr a /\
    map out_fecha (out a) =
      [Some (Samples.ym 2023 1); Some (Samples.ym 2023 2); Some (Samples.ym 2023 3)].
Proof.
  destruct (analyse (Frame.sort_values Samples.index_gap)
              (Some (Samples.ym 2023 1)) (Some (Samples.ym 2023 3)) None)
    as [e | a] eqn:E; [vm_compute in E; discriminate |].
  exists a. split; [reflexivity |].
  rewrite (proj1 (@out_chronological Samples.index_gap (Some (Samples.ym 2023 1))
                    (Some (Samples.ym 2023 3)) None a E)).
  vm_compute in E. injection E as Ea. rewrite <- Ea. reflexivity.
Defined.

(** ** The summary table *)

Lemma last_default (A : Type) (xs : list A) (a d d' : A) :
  List.last (a :: xs) d = List.last (a :: xs) d'.
Proof.
  revert a. induction xs as [| y xs IH]; intros a; [reflexivity |].
  change (List.last (y :: xs) d = List.last (y :: xs) d'). apply IH.
Qed.

Lemma last_opt_last (A : Type) (xs : list A) (x : A) :
  last_opt (x :: xs) = Some (List.last xs x).
Proof.
  revert x. induction xs as [| y xs IH]; intros x; [reflexivity |].
  change (last_opt (x :: y :: xs)) with
    (match last_opt (y :: xs) with Some z => Some z | None => Some x end).
  rewrite IH. f_equal. destruct xs as [| a xs]; [reflexivity |].
  exact (@last_default A xs a y x).
Qed.

Lemma series_max_In (x : float) (xs : list float) : In (series_max x xs) (x :: xs).
Proof.
  unfold series_max. revert x. induction xs as [| y xs IH]; intros x; simpl; [auto |].
  destruct (x <=? y)%float.
  - destruct (IH y) as [E | H]; [right; left; exact E | right; right; exact H].
  - destruct (IH x) as [E | H]; [left; exact E | right; right; exact H].
Qed.

Lemma series_min_In (x : float) (xs : list float) : In (series_min x xs) (x :: xs).
Proof.
  unfold series_min. revert x. induction xs as [| y xs IH]; intros x; simpl; [auto |].
  destruct (y <=? x)%float.
  - destruct (IH y) as [E | H]; [right; left; exact E | right; right; exact H].
  - destruct (IH x) as [E | H]; [left; exact E | right; right; exact H].
Qed.

Lemma filter_notna_nil (s : list float) :
  filter Cell.notna s = [] <-> Cell.any_notna s = false.
Proof.
  unfold Cell.any_notna. induction s as [| x s IH]; simpl; [tauto |].
  destruct (Cell.notna x); simpl; [split; discriminate | exact IH].
Qed.

Lemma stats_None_iff (mean : list float -> float) (s : list float) :
  stats mean s = None <-> Cell.any_notna s = false.
Proof.
  unfold stats. rewrite <- filter_notna_nil.
  destruct (filter Cell.notna s); split; intros H; try discriminate; reflexivity.
Qed.

(** X16: the statistics of a series are those of its present values.
    [stats] returns nothing exactly when the series has no present value;
    otherwise the last value is the last present value of the series, the
    maximum and the minimum are present values of the series, and the mean is
    taken over the present values only. *)
Theorem stats_present_values (mean : list float -> float) (s : list float) :
  (stats mean s = None <-> Cell.any_notna s = false) /\
  (forall st, stats mean s = Some st ->
     last_opt (filter Cell.notna s) = Some (ultimo st) /\
     (In (ultimo st) s /\ Cell.notna (ultimo st) = true) /\
     (In (maximo st) s /\ Cell.notna (maximo st) = true) /\
     (In (minimo st) s /\ Cell.notna (minimo st) = true) /\
     promedio st = mean (filter Cell.notna s)).
Proof.
  split; [apply stats_None_iff |].
  unfold stats.
  - intros st.
    destruct (filter Cell.notna s) as [| x xs] eqn:F; [discriminate |].
    intros E. inversion E; subst st; simpl. clear E.
    assert (Hsub : forall y, In y (x :: xs) -> In y s /\ Cell.notna y = true).
    { intros y Hy. rewrite <- F in Hy. apply filter_In in Hy. exact Hy. }
    split; [apply last_opt_last |].
    split.
    { apply Hsub. apply last_opt_In. apply last_opt_last. }
    split; [apply Hsub, series_max_In |].
    split; [apply Hsub, series_min_In | reflexivity].
Qed.

(** X17: the summary has one row per plotted series, in the order of the
    plot, and none for a series that is not plotted: a plotted series always
    has statistics. *)
Theorem summary_rows (mean : list float -> float) (out : list OutRow) :
  map fst (summary mean out (series_of out)) =
    map (fun n => if String.eqb n "ars_real" then "ARS real"%string
                  else "USD real (ajustado)"%string)
        (series_of out) /\
  (forall st, In ("ARS real"%string, st) (summary mean out (series_of out)) ->
              stats mean (map ars_real out) = Some st) /\
  (forall st, In ("USD real (ajustado)"%string, st) (summary mean out (series_of out)) ->
              stats mean (map usd_real out) = Some st).
Proof.
  assert (Hsome : forall s, Cell.any_notna s = true -> exists st, stats mean s = Some st).
  { intros s H. destruct (stats mean s) as [st |] eqn:E; [eauto |].
    apply stats_None_iff in E. congruence. }
  unfold summary, series_of.
  destruct (Cell.any_notna (map ars_real out)) eqn:A,
    (Cell.any_notna (map usd_real out)) eqn:U; simpl.
  - destruct (Hsome _ A) as [sa Ea], (Hsome _ U) as [su Eu]. rewrite Ea, Eu. simpl.
    split; [reflexivity |].
    split; intros st [E | [E | []]]; inversion E; reflexivity.
  - destruct (Hsome _ A) as [sa Ea]. rewrite Ea. simpl.
    split; [reflexivity |].
    split; intros st [E | []]; inversion E; reflexivity.
  - destruct (Hsome _ U) as [su Eu]. rewrite Eu. simpl.
    split; [reflexivity |].
    split; intros st [E | []]; inversion E; reflexivity.
  - split; [reflexivity |]. split; intros st [].
Qed.

(** ** Deflating to the same index level *)

Module RoundTrip.

Lemma div_eucl_mul (q m : positive) :
  Z.div_eucl (Zpos m * Zpos q) (Zpos m) = (Zpos q, 0%Z).
Proof.
  pose proof (Z.div_mul (Zpos q) (Zpos m) ltac:(discriminate)) as D.
  pose proof (Z.mod_mul (Zpos q) (Zpos m) ltac:(discriminate)) as M.
  rewrite Z.mul_comm in D, M.
  unfold Z.div, Z.modulo in D, M.
  destruct (Z.div_eucl (Zpos m * Zpos q) (Zpos m)) as [a b]. simpl in D, M. congruence.
Qed.

Lemma Prim2SF_one : Prim2SF one = S754_finite false 4503599627370496 (-52).
Proof. reflexivity. Qed.

(** The quotient of a finite non-zero number by itself is exactly one. *)
Lemma SFdiv_self (s : bool) (m : positive) (e : Z) :
  SF64div (S754_finite s m e) (S754_finite s m e) =
  S754_finite false 4503599627370496 (-52).
Proof.
  unfold SF64div, SFdiv, SFdiv_core_binary.
  rewrite xorb_nilpotent, !Z.sub_diag.
  change (Z.min (fexp prec emax 0) 0) with (-53)%Z.
  change (0 - -53)%Z with 53%Z.
  rewrite Z.shiftl_mul_pow2 by lia.
  change (2 ^ 53)%Z with (Zpos 9007199254740992).
  rewrite div_eucl_mul.
  unfold new_location, new_location_even, new_location_odd.
  change (0 =? 0)%Z with true.
  destruct (Z.even (Zpos m)); vm_compute; reflexivity.
Qed.

(** The product of a representable number and one is the number: the
    rounding of [m * 2^52] at exponent [e - 52] shifts the 52 zero bits out
    and finds the mantissa back. *)
Lemma SFmul_one (s : bool) (m : positive) (e : Z) :
  bounded prec emax m e = true ->
  SF64mul (S754_finite s m e) (S754_finite false 4503599627370496 (-52)) =
  S754_finite s m e.
Proof.
  intros B. unfold bounded, canonical_mantissa in B. apply andb_true_iff in B.
  destruct B as [C L]. apply Z.eqb_eq in C.
  unfold SF64mul, SFmul. rewrite xorb_false_r, Pos.mul_comm.
  cbn [Pos.mul].
  unfold binary_round_aux, shr_fexp.
  cbn [Zdigits2 digits2_pos].
  rewrite !Pos2Z.inj_succ.
  match goal with
  | |- context [fexp prec emax ?x] =>
      replace x with (Z.pos (digits2_pos m) + e)%Z by lia
  end.
  rewrite C.
  replace (e - (e + -52))%Z with 52%Z by lia.
  cbn [shr shr_record_of_loc iter_pos shr_1 orb].
  cbn [loc_of_shr_record round_nearest_even shr_m].
  cbn [Zdigits2].
  replace (e + -52 + 52)%Z with e by lia.
  rewrite C, Z.sub_diag. cbn [shr shr_record_of_loc shr_m].
  rewrite L. reflexivity.
Qed.

Lemma mul_one_r (x : float) : (x * 1)%float = x.
Proof.
  apply Prim2SF_inj. rewrite mul_spec.
  change (Prim2SF 1) with (S754_finite false 4503599627370496 (-52)).
  pose proof (Prim2SF_valid x) as V.
  destruct (Prim2SF x) as [s | s | | s m e].
  - unfold SF64mul, SFmul. rewrite xorb_false_r. reflexivity.
  - unfold SF64mul, SFmul. rewrite xorb_false_r. reflexivity.
  - reflexivity.
  - apply SFmul_one. exact V.
Qed.

Lemma div_self (c : float) :
  is_finite c = true -> is_zero c = false -> (c / c)%float = 1%float.
Proof.
  intros Hf Hz. apply Prim2SF_inj. rewrite div_spec.
  change (Prim2SF 1) with (S754_finite false 4503599627370496 (-52)).
  unfold is_finite in Hf. apply negb_true_iff, orb_false_iff in Hf.
  destruct Hf as [Hn Hi].
  destruct (Prim2SF c) as [s | s | | s m e] eqn:E.
  - assert (is_zero c = true) by (apply CellFacts.is_zero_spec; eauto). congruence.
  - assert (is_infinity c = true) by (apply CellFacts.is_infinity_spec; eauto). congruence.
  - assert (is_nan c = true) by (apply CellFacts.is_nan_spec; exact E). congruence.
  - apply SFdiv_self.
Qed.

End RoundTrip.

(** X18: deflating to the same index level changes nothing.  For every
    value (present or not) and every finite, non-zero index level, [deflate]
    with the base level equal to the level at [t] returns the value itself,
    with no rounding error. *)
Theorem deflate_round_trip (series cpi : float) :
  is_finite cpi = true -> is_zero cpi = false ->
  deflate series cpi cpi = series.
Proof.
  intros Hf Hz. unfold deflate.
  rewrite (RoundTrip.div_self Hf Hz). apply RoundTrip.mul_one_r.
Qed.

Lemma deflate_round_trip_witness : deflate 1234.5 110 110 = 1234.5%float.
Proof.
  apply (@deflate_round_trip 1234.5%float 110%float); reflexivity.
Defined.

(** X19: on the row that provides the base level, the real salary is the
    nominal salary.  When the base level of [cpi_ar] is resolved to a finite,
    non-zero level, the window has a row at or before the base month whose
    [cpi_ar] is that level and whose [ars_real] is exactly its
    [sueldo_nominal_ars]. *)
Theorem base_row_real_is_nominal (df : DataFrame datetime) (bm : datetime) (b : float) :
  cpi_ar_base df bm = Some b ->
  is_finite b = true -> is_zero b = false ->
  exists i r o,
    nth_error (rows df) i = Some r /\
    nth_error (derive df bm) i = Some o /\
    provides (@cpi_ar datetime) bm r = true /\
    cpi_ar r = b /\
    ars_real o = sueldo_nominal_ars r.
Proof.
  intros Hb Hf Hz.
  destruct (base_level_Some _ _ _ _ Hb) as [l1 [r [l2 [Hl [Hc [Hp _]]]]]].
  assert (Hi : nth_error (rows df) (List.length l1) = Some r).
  { rewrite Hl. rewrite nth_error_app2 by lia. rewrite Nat.sub_diag. reflexivity. }
  exists (List.length l1), r. eexists.
  split; [exact Hi |]. split; [apply nth_error_derive; exact Hi |].
  split; [exact Hp |]. split; [exact Hc |].
  unfold derive_row; simpl. rewrite Hb, Hc.
  rewrite (RoundTrip.div_self Hf Hz). apply RoundTrip.mul_one_r.
Qed.

Lemma base_row_real_is_nominal_witness :
  exists i r o,
    nth_error (rows Samples.resolver_c) i = Some r /\
    nth_error (derive Samples.resolver_c (Some (Samples.ym 2023 2))) i = Some o /\
    provides (@cpi_ar datetime) (Some (Samples.ym 2023 2)) r = true /\
    cpi_ar r = 100%float /\
    ars_real o = sueldo_nominal_ars r.
Proof.
  apply (@base_row_real_is_nominal Samples.resolver_c (Some (Samples.ym 2023 2)) 100%float);
    reflexivity.
Defined.

(** ** What a plotted series requires *)

Lemma notna_mul (x y : float) :
  Cell.notna (x * y)%float = true -> Cell.notna x = true /\ Cell.notna y = true.
Proof.
  intros H. split.
  - destruct (Cell.notna x) eqn:E; [reflexivity |].
    apply CellFacts.notna_false in E. subst x.
    rewrite CellFacts.mul_nan_l in H. discriminate.
  - destruct (Cell.notna y) eqn:E; [reflexivity |].
    apply CellFacts.notna_false in E. subst y.
    rewrite CellFacts.mul_nan_r in H. discriminate.
Qed.

Lemma notna_div (x y : float) :
  Cell.notna (x / y)%float = true -> Cell.notna x = true /\ Cell.notna y = true.
Proof.
  intros H. split.
  - destruct (Cell.notna x) eqn:E; [reflexivity |].
    apply CellFacts.notna_false in E. subst x.
    rewrite CellFacts.div_nan_l in H. discriminate.
  - destruct (Cell.notna y) eqn:E; [reflexivity |].
    apply CellFacts.notna_false in E. subst y.
    rewrite CellFacts.div_nan_r in H. discriminate.
Qed.

(** X20: a plotted series has what the help text says it requires.  If
    [ars_real] is in [series], the table has a [cpi_ar] column and a row with
    both salary and [cpi_ar] present; if [usd_real] is in [series], it has
    the [usd_ars] and [cpi_us] columns and a row with salary, [usd_ars] and
    [cpi_us] all present. *)
Theorem plotted_series_requirements (df : DataFrame datetime) (bm : datetime) :
  (In "ars_real"%string (series_of (derive df bm)) ->
   has_column "cpi_ar" df = true /\
   exists r, In r (rows df) /\
             Cell.notna (sueldo_nominal_ars r) = true /\ Cell.notna (cpi_ar r) = true) /\
  (In "usd_real"%string (series_of (derive df bm)) ->
   has_column "usd_ars" df = true /\ has_column "cpi_us" df = true /\
   exists r, In r (rows df) /\
             Cell.notna (sueldo_nominal_ars r) = true /\
             Cell.notna (usd_ars r) = true /\ Cell.notna (cpi_us r) = true).
Proof.
  split.
  - intros H. apply series_of_ars, any_notna_exists in H.
    destruct H as [o [Ho N]]. unfold derive in Ho. apply in_map_iff in Ho.
    destruct Ho as [r [Eo Hr]]. subst o. unfold derive_row in N; simpl in N.
    destruct (cpi_ar_base df bm) as [b |] eqn:B; [| discriminate].
    split.
    + destruct (has_column "cpi_ar" df) eqn:C; [reflexivity |].
      assert (cpi_ar_base df bm = None) by (apply base_level_None; left; exact C).
      congruence.
    + exists r. split; [exact Hr |].
      apply notna_mul in N. destruct N as [Ns Nq].
      apply notna_div in Nq. tauto.
  - intros H. apply series_of_usd, any_notna_exists in H.
    destruct H as [o [Ho N]]. unfold derive in Ho. apply in_map_iff in Ho.
    destruct Ho as [r [Eo Hr]]. subst o. unfold derive_row in N; simpl in N.
    destruct (has_fx df) eqn:F; [| discriminate].
    destruct (cpi_us_base df bm) as [b |] eqn:B; [| discriminate].
    split.
    { unfold has_fx in F. apply andb_true_iff in F. tauto. }
    split.
    { destruct (has_column "cpi_us" df) eqn:C; [reflexivity |].
      assert (cpi_us_base df bm = None) by (apply base_level_None; left; exact C).
      congruence. }
    exists r. split; [exact Hr |].
    apply notna_mul in N. destruct N as [Nn Nq].
    apply notna_div in Nn. apply notna_div in Nq. tauto.
Qed.

Lemma plotted_series_requirements_witness :
  has_column "cpi_ar" Samples.resolver_c = true /\
  exists r, In r (rows Samples.resolver_c) /\
            Cell.notna (sueldo_nominal_ars r) = true /\ Cell.notna (cpi_ar r) = true.
Proof.
  apply (proj1 (plotted_series_requirements Samples.resolver_c (Some (Samples.ym 2023 2)))).
  left. reflexivity.
Defined.

(** ** The default range of a table without optional data *)

(** X21: for an input without usable optional columns the default range is
    the whole table.  When the input has no [cpi_ar] column and either has no
    [usd_ars] column or has no [cpi_us] column while the reference fetch
    failed, no watermark is computed and the last common month is the last
    month of the merged table. *)
Theorem no_optional_columns_whole_range (parse : string -> option Timestamp)
  (input : DataFrame datelike) (fetched : option (list (datelike * float)))
  (df : DataFrame datetime) :
  merged_table parse input (load_reference parse fetched) = inr df ->
  has_column "cpi_ar" input = false ->
  has_column "usd_ars" input = false \/
  (has_column "cpi_us" input = false /\ fetched = None) ->
  compute_last_common_month df =
    (Dt.min (map (@fecha datetime) (rows df)),
     Dt.max (map (@fecha datetime) (rows df)),
     []).
Proof.
  intros M Har Hus.
  destruct (merged_table_inr _ _ _ M) as [df0 [M0 [Hcols Hperm]]].
  assert (Hcol : forall c, has_column c df = has_column c df0).
  { intros c. unfold has_column. rewrite Hcols. reflexivity. }
  assert (Ha : available df ars_real_needs = false).
  { unfold available, ars_real_needs. cbn [forallb fst snd]. rewrite Hcol.
    rewrite (merge_all_lacks_column parse input _ M0 Har); [reflexivity | auto]. }
  assert (Hu : available df usd_real_needs = false).
  { unfold available, usd_real_needs. cbn [forallb fst snd]. rewrite !Hcol.
    destruct Hus as [Hu | [Hc Hf]].
    - rewrite (merge_all_lacks_column parse input _ M0 Hu); [reflexivity | auto].
    - assert (Hany : Cell.any_notna (map (@cpi_us datetime) (rows df)) = false).
      { apply any_notna_all_nan. intros x Hx. apply in_map_iff in Hx.
        destruct Hx as [r [Ex Hr]]. subst x. apply (Permutation_in _ Hperm) in Hr.
        subst fetched. apply (left_join_empty_reference parse input Hc M0 r Hr). }
      rewrite Hany. rewrite !andb_false_r. reflexivity. }
  unfold compute_last_common_month, watermarks. rewrite Ha, Hu. reflexivity.
Qed.

Lemma no_optional_columns_whole_range_witness :
  exists df,
    merged_table Samples.no_text Samples.without_foreign
                 (load_reference Samples.no_text None) = inr df /\
    compute_last_common_month df =
      (Some (Samples.ym 2023 1), Some (Samples.ym 2023 3), []).
Proof.
  eexists. split; [reflexivity |].
  rewrite (@no_optional_columns_whole_range Samples.no_text Samples.without_foreign None _
             eq_refl eq_refl (or_intror (conj eq_refl eq_refl))).
  reflexivity.
Defined.
